(** * ClaimGuardian search service: cross-entity search and faceted filters

    A shallow embedding of [src/lib/search-service.ts] (the functions
    [globalSearch], [filterPolicies], [filterClaims], [filterDocuments])
    together with an in-memory reference semantics of the record store
    the service queries, and the properties of the search engine proved
    over it.

    Conventions of the model:
    - strings are ASCII strings; JavaScript white space is the set
      TAB, LF, VT, FF, CR, SPACE, and case conversion acts on the letters
      a-z / A-Z;
    - [Date] values and decimal amounts are integers ([Z]): a time stamp
      in milliseconds, an amount in its smallest unit;
    - [page] and [limit] are integers ([Z]); NaN and fractions are outside
      the model;
    - a store query is a value (a [whereInput] tree plus a window), so the
      queries a function issues can be inspected as well as executed;
    - of the store client's argument validation only the rejection of a
      negative [skip] is modelled. *)

From Stdlib Require Import List ZArith Lia Bool String Ascii.
From Stdlib Require Import Sorting.Sorted Sorting.Permutation.
Import ListNotations.

Set Warnings "-register-all".

Local Open Scope list_scope.
Local Open Scope Z_scope.

(* ================================================================== *)
(** ** JavaScript string and array primitives used by the service *)
(* ================================================================== *)

Module JS.

(** White space as recognised by [String.prototype.trim] and by the
    regular expression class [\s], restricted to ASCII. *)
Definition isWhiteSpace (c : ascii) : bool :=
  let n := nat_of_ascii c in
  (Nat.eqb n 9 || Nat.eqb n 10 || Nat.eqb n 11 || Nat.eqb n 12
   || Nat.eqb n 13 || Nat.eqb n 32)%bool.

Definition isEmpty (s : string) : bool :=
  match s with EmptyString => true | String _ _ => false end.

Fixpoint trimStart (s : string) : string :=
  match s with
  | EmptyString => EmptyString
  | String c r => if isWhiteSpace c then trimStart r else s
  end.

Fixpoint trimEnd (s : string) : string :=
  match s with
  | EmptyString => EmptyString
  | String c r =>
      let r' := trimEnd r in
      if (isWhiteSpace c && isEmpty r')%bool then EmptyString
      else String c r'
  end.

(** [s.trim()] *)
Definition trim (s : string) : string := trimEnd (trimStart s).

(** [s.split(/\s+/)]: [cur] is the piece being read, and [inRun] tells
    that the previous character belonged to a separator run.  A leading
    or trailing separator yields an empty piece, and the empty string
    splits into one empty piece, as in JavaScript. *)
Fixpoint splitAux (inRun : bool) (cur : string) (s : string) : list string :=
  match s with
  | EmptyString => [cur]
  | String c r =>
      if isWhiteSpace c then
        if inRun then splitAux true cur r
        else cur :: splitAux true EmptyString r
      else splitAux false (cur ++ String c EmptyString)%string r
  end.

Definition splitWhitespace (s : string) : list string :=
  splitAux false EmptyString s.

(** [xs.filter(Boolean)] on an array of strings: the empty string is
    the only falsy string. *)
Definition filterBoolean (xs : list string) : list string :=
  filter (fun s => negb (isEmpty s)) xs.

Definition isLower (c : ascii) : bool :=
  let n := nat_of_ascii c in (Nat.leb 97 n && Nat.leb n 122)%bool.

Definition isUpper (c : ascii) : bool :=
  let n := nat_of_ascii c in (Nat.leb 65 n && Nat.leb n 90)%bool.

Definition upperChar (c : ascii) : ascii :=
  if isLower c then ascii_of_nat (nat_of_ascii c - 32) else c.

Definition lowerChar (c : ascii) : ascii :=
  if isUpper c then ascii_of_nat (nat_of_ascii c + 32) else c.

Fixpoint mapString (f : ascii -> ascii) (s : string) : string :=
  match s with
  | EmptyString => EmptyString
  | String c r => String (f c) (mapString f r)
  end.

(** [s.toUpperCase()], [s.toLowerCase()] *)
Definition toUpperCase : string -> string := mapString upperChar.
Definition toLowerCase : string -> string := mapString lowerChar.

(** [s.includes(t)]: [t] occurs in [s] as a contiguous substring. *)
Fixpoint includes (s t : string) : bool :=
  (String.prefix t s ||
   match s with
   | EmptyString => false
   | String _ r => includes r t
   end)%bool.

(** [term.match(/k1|k2|.../i)] for literal alternatives: some keyword
    occurs in the term, letter case ignored. *)
Definition matchesAnyInsensitive (keywords : list string) (term : string)
  : bool :=
  existsb (fun k => includes (toLowerCase term) (toLowerCase k)) keywords.

(** [s.slice(0, n)] on a string, for [n >= 0]. *)
Definition sliceTo (n : nat) (s : string) : string := String.substring 0 n s.

(** [xs.slice(start, end)] for integer arguments: a negative index
    counts from the end, and both are clamped to the array. *)
Definition slice {A : Type} (start stop : Z) (xs : list A) : list A :=
  let len := Z.of_nat (List.length xs) in
  let k := if start <? 0 then Z.max (len + start) 0 else Z.min start len in
  let fin := if stop <? 0 then Z.max (len + stop) 0 else Z.min stop len in
  firstn (Z.to_nat (fin - k)) (skipn (Z.to_nat k) xs).

End JS.

(** Stable sort, descending on an integer key.  It is the result of
    [xs.sort((a, b) => key b - key a)] (the language requires
    [Array.prototype.sort] to be stable, which fixes the result), and it
    is the order in which the store delivers [orderBy: { key: 'desc' }],
    rows of equal key staying in table order.  [insertDesc] puts [x] in
    front of the first element whose key does not exceed the key of [x]. *)
Section Sort.
Context {A : Type} (key : A -> Z).

Fixpoint insertDesc (x : A) (l : list A) : list A :=
  match l with
  | [] => [x]
  | y :: r => if key y <=? key x then x :: l else y :: insertDesc x r
  end.

Fixpoint sortDesc (l : list A) : list A :=
  match l with
  | [] => []
  | x :: r => insertDesc x (sortDesc r)
  end.
End Sort.

(** The tokenizer of [globalSearch]:
    [query.trim().split(/\s+/).filter(Boolean)]. *)
Definition tokenize (query : string) : list string :=
  JS.filterBoolean (JS.splitWhitespace (JS.trim query)).

(* ================================================================== *)
(** ** The record store: query language and reference semantics *)
(* ================================================================== *)

Module Prisma.

(** Column values. Enumerations travel as their names. *)
Inductive scalar : Type :=
| SNull
| SStr (s : string)
| SInt (z : Z)
| SBool (b : bool).

Definition scalar_eqb (a b : scalar) : bool :=
  match a, b with
  | SNull, SNull => true
  | SStr x, SStr y => String.eqb x y
  | SInt x, SInt y => Z.eqb x y
  | SBool x, SBool y => Bool.eqb x y
  | _, _ => false
  end.

(** The filters the service places on one column:
    [v], [{ in: vs }], [{ contains: t, mode: 'insensitive' }] and
    [{ gte, lte }] with each bound optional. *)
Inductive fieldFilter : Type :=
| Equals (v : scalar)
| InList (vs : list scalar)
| ContainsInsensitive (t : string)
| Range (gte lte : option Z).

(** A [where] argument. An object with several keys is the conjunction
    [AND] of its entries; the key [OR] holds a list of alternatives. *)
Inductive whereInput : Type :=
| Field (name : string) (f : fieldFilter)
| OR (alternatives : list whereInput)
| AND (entries : list whereInput).

Definition lowerBoundOk (b : option Z) (z : Z) : bool :=
  match b with None => true | Some g => g <=? z end.

Definition upperBoundOk (b : option Z) (z : Z) : bool :=
  match b with None => true | Some l => z <=? l end.

(** A filter applied to a column value. A null column satisfies none of
    the filters the service uses. *)
Definition evalFilter (f : fieldFilter) (x : scalar) : bool :=
  match f, x with
  | Equals v, _ => scalar_eqb x v
  | InList vs, SNull => false
  | InList vs, _ => existsb (scalar_eqb x) vs
  | ContainsInsensitive t, SStr s =>
      JS.includes (JS.toLowerCase s) (JS.toLowerCase t)
  | ContainsInsensitive _, _ => false
  | Range g l, SInt z => (lowerBoundOk g z && upperBoundOk l z)%bool
  | Range _ _, _ => false
  end.

(** [eval row w]: the row, seen through its column accessor, satisfies
    [w]. An empty [OR] matches nothing, an empty [AND] everything. *)
Fixpoint eval (row : string -> scalar) (w : whereInput) : bool :=
  match w with
  | Field name f => evalFilter f (row name)
  | OR ws => existsb (eval row) ws
  | AND ws => forallb (eval row) ws
  end.

Section Table.
Context {R : Type} (columns : R -> string -> scalar) (updatedAt : R -> Z).

Definition matching (w : whereInput) (rows : list R) : list R :=
  filter (fun r => eval (columns r) w) rows.

(** [skip]/[take] on an ordered result. The client rejects a negative
    [skip]; a negative [take] counts from the end of the order. *)
Definition windowRows (skip take : Z) (l : list R) : list R :=
  if 0 <=? take then firstn (Z.to_nat take) (skipn (Z.to_nat skip) l)
  else rev (firstn (Z.to_nat (- take)) (skipn (Z.to_nat skip) (rev l))).

Definition window (skip take : Z) (l : list R) : option (list R) :=
  if skip <? 0 then None else Some (windowRows skip take l).

(** [findMany({ where, orderBy: { updatedAt: 'desc' }, skip, take })] *)
Definition findManyRows (w : whereInput) (skip take : Z) (rows : list R)
  : option (list R) :=
  window skip take (sortDesc updatedAt (matching w rows)).

(** [count({ where })] *)
Definition countRows (w : whereInput) (rows : list R) : Z :=
  Z.of_nat (List.length (matching w rows)).
End Table.

End Prisma.
Export Prisma.

(* ================================================================== *)
(** ** Data model ([prisma/schema.prisma]) *)
(* ================================================================== *)

Module InsuranceType.
Inductive t : Type := HOME | AUTO | HEALTH | LIFE | PROPERTY | LIABILITY | OTHER.

Definition name (x : t) : string :=
  match x with
  | HOME => "HOME" | AUTO => "AUTO" | HEALTH => "HEALTH" | LIFE => "LIFE"
  | PROPERTY => "PROPERTY" | LIABILITY => "LIABILITY" | OTHER => "OTHER"
  end.
End InsuranceType.

Module ClaimStatus.
Inductive t : Type :=
  DRAFT | SUBMITTED | UNDER_REVIEW | APPROVED | REJECTED | PAID | CLOSED.

Definition name (x : t) : string :=
  match x with
  | DRAFT => "DRAFT" | SUBMITTED => "SUBMITTED"
  | UNDER_REVIEW => "UNDER_REVIEW" | APPROVED => "APPROVED"
  | REJECTED => "REJECTED" | PAID => "PAID" | CLOSED => "CLOSED"
  end.
End ClaimStatus.

Module DocumentType.
Inductive t : Type :=
  POLICY | CLAIM | IDENTITY | PROOF_OF_LOSS | ESTIMATE | INVOICE | RECEIPT
| PHOTO | OTHER.

Definition name (x : t) : string :=
  match x with
  | POLICY => "POLICY" | CLAIM => "CLAIM" | IDENTITY => "IDENTITY"
  | PROOF_OF_LOSS => "PROOF_OF_LOSS" | ESTIMATE => "ESTIMATE"
  | INVOICE => "INVOICE" | RECEIPT => "RECEIPT" | PHOTO => "PHOTO"
  | OTHER => "OTHER"
  end.
End DocumentType.

Record InsurancePolicy : Type := mkPolicy {
  policy_id : string;
  policy_policyNumber : string;
  policy_userId : string;
  policy_insuranceType : InsuranceType.t;
  policy_provider : string;
  policy_coverageAmount : Z;
  policy_premium : Z;
  policy_startDate : Z;
  policy_endDate : Z;
  policy_isActive : bool;
  policy_description : option string;
  policy_createdAt : Z;
  policy_updatedAt : Z
}.

Record Claim : Type := mkClaim {
  claim_id : string;
  claim_claimNumber : string;
  claim_userId : string;
  claim_policyId : string;
  claim_status : ClaimStatus.t;
  claim_incidentDate : Z;
  claim_reportDate : Z;
  claim_description : string;
  claim_damageAmount : option Z;
  claim_approvedAmount : option Z;
  claim_rejectionReason : option string;
  claim_createdAt : Z;
  claim_updatedAt : Z
}.

Record Document : Type := mkDocument {
  document_id : string;
  document_fileName : string;
  document_fileKey : string;
  document_fileType : string;
  document_fileSize : Z;
  document_documentType : DocumentType.t;
  document_uploadDate : Z;
  document_description : option string;
  document_userId : string;
  document_policyId : option string;
  document_claimId : option string;
  document_extractedData : option string;
  document_isAnalyzed : bool;
  document_createdAt : Z;
  document_updatedAt : Z
}.

(** The three collections the service reads. *)
Record Store : Type := mkStore {
  policies : list InsurancePolicy;
  claims : list Claim;
  documents : list Document
}.

Definition optStr (o : option string) : scalar :=
  match o with Some s => SStr s | None => SNull end.

Definition optInt (o : option Z) : scalar :=
  match o with Some z => SInt z | None => SNull end.

(** Column accessors: the columns the service filters on, by name. *)
Definition policyColumns (p : InsurancePolicy) (name : string) : scalar :=
  if String.eqb name "userId" then SStr (policy_userId p)
  else if String.eqb name "policyNumber" then SStr (policy_policyNumber p)
  else if String.eqb name "provider" then SStr (policy_provider p)
  else if String.eqb name "description" then optStr (policy_description p)
  else if String.eqb name "insuranceType"
       then SStr (InsuranceType.name (policy_insuranceType p))
  else if String.eqb name "isActive" then SBool (policy_isActive p)
  else if String.eqb name "coverageAmount" then SInt (policy_coverageAmount p)
  else if String.eqb name "startDate" then SInt (policy_startDate p)
  else if String.eqb name "endDate" then SInt (policy_endDate p)
  else SNull.

Definition claimColumns (c : Claim) (name : string) : scalar :=
  if String.eqb name "userId" then SStr (claim_userId c)
  else if String.eqb name "claimNumber" then SStr (claim_claimNumber c)
  else if String.eqb name "description" then SStr (claim_description c)
  else if String.eqb name "status"
       then SStr (ClaimStatus.name (claim_status c))
  else if String.eqb name "policyId" then SStr (claim_policyId c)
  else if String.eqb name "incidentDate" then SInt (claim_incidentDate c)
  else if String.eqb name "damageAmount" then optInt (claim_damageAmount c)
  else SNull.

Definition documentColumns (d : Document) (name : string) : scalar :=
  if String.eqb name "userId" then SStr (document_userId d)
  else if String.eqb name "fileName" then SStr (document_fileName d)
  else if String.eqb name "description" then optStr (document_description d)
  else if String.eqb name "documentType"
       then SStr (DocumentType.name (document_documentType d))
  else if String.eqb name "policyId" then optStr (document_policyId d)
  else if String.eqb name "claimId" then optStr (document_claimId d)
  else if String.eqb name "isAnalyzed" then SBool (document_isAnalyzed d)
  else if String.eqb name "uploadDate" then SInt (document_uploadDate d)
  else SNull.

(* ================================================================== *)
(** ** Store calls, their trace, and asynchronous computations *)
(* ================================================================== *)

Inductive Model : Type := MInsurancePolicy | MClaim | MDocument.

Inductive Operation : Type :=
| FindMany (skip take : Z)   (* always ordered by updatedAt, descending *)
| Count.

Record StoreCall : Type := mkCall {
  callModel : Model;
  callOp : Operation;
  callWhere : whereInput
}.

(** What an observer of the store client sees: a query being issued, and
    the caller suspending on [await Promise.all([...])] until the listed
    queries have completed. *)
Inductive Event : Type :=
| Issue (c : StoreCall)
| AwaitAll (cs : list StoreCall).

Definition Trace : Type := list Event.

(** A query handed to the store client: the call and its outcome
    ([None] when the client rejects it). *)
Record Pending (A : Type) : Type := mkPending {
  pendingCall : StoreCall;
  pendingResult : option A
}.
Arguments mkPending {A}.
Arguments pendingCall {A}.
Arguments pendingResult {A}.

(** An [async] computation: its result ([None] when it throws) and the
    events it caused, in order. *)
Definition Async (A : Type) : Type := (option A * Trace)%type.

Definition ret {A : Type} (a : A) : Async A := (Some a, []).

Definition bind {A B : Type} (m : Async A) (k : A -> Async B) : Async B :=
  match m with
  | (None, t) => (None, t)
  | (Some a, t) => let '(r, t') := k a in (r, t ++ t')
  end.

Notation "' pat <- m ;; k" :=
  (bind m (fun x => match x with pat => k end))
  (at level 61, pat pattern, m at next level, right associativity).

(** [await Promise.all([p, q])]: both queries are issued, then the caller
    waits for both; it throws when one of them is rejected. *)
Definition awaitAll2 {A B : Type} (p : Pending A) (q : Pending B)
  : Async (A * B) :=
  (match pendingResult p, pendingResult q with
   | Some a, Some b => Some (a, b)
   | _, _ => None
   end,
   [Issue (pendingCall p); Issue (pendingCall q);
    AwaitAll [pendingCall p; pendingCall q]]).

Definition policyFindMany (db : Store) (w : whereInput) (skip take : Z)
  : Pending (list InsurancePolicy) :=
  mkPending (mkCall MInsurancePolicy (FindMany skip take) w)
            (findManyRows policyColumns policy_updatedAt w skip take
                          (policies db)).

Definition policyCount (db : Store) (w : whereInput) : Pending Z :=
  mkPending (mkCall MInsurancePolicy Count w)
            (Some (countRows policyColumns w (policies db))).

Definition claimFindMany (db : Store) (w : whereInput) (skip take : Z)
  : Pending (list Claim) :=
  mkPending (mkCall MClaim (FindMany skip take) w)
            (findManyRows claimColumns claim_updatedAt w skip take
                          (claims db)).

Definition claimCount (db : Store) (w : whereInput) : Pending Z :=
  mkPending (mkCall MClaim Count w)
            (Some (countRows claimColumns w (claims db))).

Definition documentFindMany (db : Store) (w : whereInput) (skip take : Z)
  : Pending (list Document) :=
  mkPending (mkCall MDocument (FindMany skip take) w)
            (findManyRows documentColumns document_updatedAt w skip take
                          (documents db)).

Definition documentCount (db : Store) (w : whereInput) : Pending Z :=
  mkPending (mkCall MDocument Count w)
            (Some (countRows documentColumns w (documents db))).

(* ================================================================== *)
(** ** The search service ([src/lib/search-service.ts]) *)
(* ================================================================== *)

Module SearchResultType.
Inductive t : Type := policy | claim | document.

Definition eqb (a b : t) : bool :=
  match a, b with
  | policy, policy | claim, claim | document, document => true
  | _, _ => false
  end.
End SearchResultType.

Record SearchResult : Type := mkResult {
  result_id : string;
  result_type : SearchResultType.t;
  result_title : string;
  result_description : string;
  result_date : Z;
  result_link : string
}.

(** [SearchOptions]; an absent optional member is [None]. *)
Record SearchOptions : Type := mkOptions {
  query : string;
  userId : string;
  types : option (list SearchResultType.t);
  limit : option Z;
  page : option Z
}.

Record SearchResponse : Type := mkResponse {
  results : list SearchResult;
  total : Z
}.

(** The default of [types]: [['policy', 'claim', 'document']]. *)
Definition defaultTypes : list SearchResultType.t :=
  [SearchResultType.policy; SearchResultType.claim; SearchResultType.document].

(** [types.includes(k)] *)
Definition typesInclude (ts : list SearchResultType.t)
  (k : SearchResultType.t) : bool :=
  existsb (SearchResultType.eqb k) ts.

Definition withDefault {A : Type} (o : option A) (d : A) : A :=
  match o with Some a => a | None => d end.

(** [a || b] on strings: the empty string is falsy. *)
Definition orElse (a : option string) (b : string) : string :=
  match a with
  | Some s => if JS.isEmpty s then b else s
  | None => b
  end.

(** [createSearchCondition(field, terms)] *)
Definition createSearchCondition (field : string) (terms : list string)
  : whereInput :=
  match terms with
  | [t] => Field field (ContainsInsensitive t)
  | _ => OR (map (fun term => Field field (ContainsInsensitive term)) terms)
  end.

Definition claimStatusKeywords : list string :=
  ["approved"; "rejected"; "paid"; "draft"; "submitted"; "review"; "closed"]
  %string.

Definition documentTypeKeywords : list string :=
  ["policy"; "claim"; "identity"; "proof"; "estimate"; "invoice"; "receipt";
   "photo"]%string.

(** [term.match(/approved|rejected|paid|draft|submitted|review|closed/i)] *)
Definition isStatusTerm (term : string) : bool :=
  JS.matchesAnyInsensitive claimStatusKeywords term.

(** [term.match(/policy|claim|identity|proof|estimate|invoice|receipt|photo/i)] *)
Definition isDocumentTypeTerm (term : string) : bool :=
  JS.matchesAnyInsensitive documentTypeKeywords term.

(** The mapping applied to each status term. *)
Definition inferStatus (term : string) : string :=
  let upperTerm := JS.toUpperCase term in
  if JS.includes upperTerm "APPROVED" then "APPROVED"
  else if JS.includes upperTerm "REJECTED" then "REJECTED"
  else if JS.includes upperTerm "PAID" then "PAID"
  else if JS.includes upperTerm "DRAFT" then "DRAFT"
  else if JS.includes upperTerm "SUBMITTED" then "SUBMITTED"
  else if JS.includes upperTerm "REVIEW" then "UNDER_REVIEW"
  else if JS.includes upperTerm "CLOSED" then "CLOSED"
  else "DRAFT".

(** The mapping applied to each document-type term. *)
Definition inferDocumentType (term : string) : string :=
  let upperTerm := JS.toUpperCase term in
  if JS.includes upperTerm "POLICY" then "POLICY"
  else if JS.includes upperTerm "CLAIM" then "CLAIM"
  else if JS.includes upperTerm "IDENTITY" then "IDENTITY"
  else if JS.includes upperTerm "PROOF" then "PROOF_OF_LOSS"
  else if JS.includes upperTerm "ESTIMATE" then "ESTIMATE"
  else if JS.includes upperTerm "INVOICE" then "INVOICE"
  else if JS.includes upperTerm "RECEIPT" then "RECEIPT"
  else if JS.includes upperTerm "PHOTO" then "PHOTO"
  else "OTHER".

(** The spread [...(searchTerms.some(isKeyword) ? [{ column: { in: ... } }] : [])] *)
Definition inferredCondition (column : string) (isKeyword : string -> bool)
  (infer : string -> string) (searchTerms : list string) : list whereInput :=
  if existsb isKeyword searchTerms
  then [Field column
          (InList (map (fun term => SStr (infer term))
                       (filter isKeyword searchTerms)))]
  else [].

(** The [OR] lists of the three searches. *)
Definition policySearchConditions (searchTerms : list string)
  : list whereInput :=
  [createSearchCondition "policyNumber" searchTerms;
   createSearchCondition "provider" searchTerms;
   createSearchCondition "description" searchTerms].

Definition claimTextConditions (searchTerms : list string)
  : list whereInput :=
  [createSearchCondition "claimNumber" searchTerms;
   createSearchCondition "description" searchTerms].

Definition claimSearchConditions (searchTerms : list string)
  : list whereInput :=
  claimTextConditions searchTerms
  ++ inferredCondition "status" isStatusTerm inferStatus searchTerms.

Definition documentTextConditions (searchTerms : list string)
  : list whereInput :=
  [createSearchCondition "fileName" searchTerms;
   createSearchCondition "description" searchTerms].

Definition documentSearchConditions (searchTerms : list string)
  : list whereInput :=
  documentTextConditions searchTerms
  ++ inferredCondition "documentType" isDocumentTypeTerm inferDocumentType
       searchTerms.

(** [{ userId, OR: [...] }] *)
Definition searchWhere (uid : string) (conditions : list whereInput)
  : whereInput :=
  AND [Field "userId" (Equals (SStr uid)); OR conditions].

Section Service.

(** [formatBytes] works in floating point ([Math.log], [toFixed]); it only
    feeds the description shown for a document without one, and is left
    abstract. *)
Variable formatBytes : Z -> string.

Definition policyResult (p : InsurancePolicy) : SearchResult :=
  {| result_id := policy_id p;
     result_type := SearchResultType.policy;
     result_title := "Policy #" ++ policy_policyNumber p;
     result_description :=
       orElse (policy_description p)
              (policy_provider p ++ " - "
               ++ InsuranceType.name (policy_insuranceType p));
     result_date := policy_updatedAt p;
     result_link := "/policies/" ++ policy_id p |}%string.

Definition claimResult (c : Claim) : SearchResult :=
  {| result_id := claim_id c;
     result_type := SearchResultType.claim;
     result_title := "Claim #" ++ claim_claimNumber c;
     result_description :=
       JS.sliceTo 100 (claim_description c)
       ++ (if (100 <? String.length (claim_description c))%nat
           then "..." else "")
       ++ " - " ++ ClaimStatus.name (claim_status c);
     result_date := claim_updatedAt c;
     result_link := "/claims/" ++ claim_id c |}%string.

Definition documentResult (d : Document) : SearchResult :=
  {| result_id := document_id d;
     result_type := SearchResultType.document;
     result_title := document_fileName d;
     result_description :=
       orElse (document_description d)
              (DocumentType.name (document_documentType d) ++ " - "
               ++ formatBytes (document_fileSize d));
     result_date := document_updatedAt d;
     result_link := "/documents/" ++ document_id d |}%string.

(** [globalSearch]. The running [results] array and [total] counter are
    threaded through the three blocks. The claim query also asks for the
    policy number of each claim's policy, which the mapping does not
    read. *)
Definition globalSearch (db : Store) (o : SearchOptions)
  : Async SearchResponse :=
  let types := withDefault (types o) defaultTypes in
  let limit := withDefault (limit o) 20 in
  let page := withDefault (page o) 1 in
  let skip := (page - 1) * limit in
  let searchTerms := tokenize (query o) in
  if (List.length searchTerms =? 0)%nat then
    ret {| results := []; total := 0 |}
  else
    let fetchSkip := if (List.length types =? 1)%nat then skip else 0 in
    let results : list SearchResult := [] in
    let total := 0 in
    '(results, total) <-
      (if typesInclude types SearchResultType.policy then
         let w := searchWhere (userId o) (policySearchConditions searchTerms) in
         '(policies, policiesCount) <-
           awaitAll2 (policyFindMany db w fetchSkip limit) (policyCount db w) ;;
         ret (results ++ map policyResult policies, total + policiesCount)
       else ret (results, total)) ;;
    '(results, total) <-
      (if typesInclude types SearchResultType.claim then
         let w := searchWhere (userId o) (claimSearchConditions searchTerms) in
         '(claims, claimsCount) <-
           awaitAll2 (claimFindMany db w fetchSkip limit) (claimCount db w) ;;
         ret (results ++ map claimResult claims, total + claimsCount)
       else ret (results, total)) ;;
    '(results, total) <-
      (if typesInclude types SearchResultType.document then
         let w := searchWhere (userId o)
                    (documentSearchConditions searchTerms) in
         '(documents, documentsCount) <-
           awaitAll2 (documentFindMany db w fetchSkip limit)
                     (documentCount db w) ;;
         ret (results ++ map documentResult documents, total + documentsCount)
       else ret (results, total)) ;;
    let results := sortDesc result_date results in
    let results :=
      if (1 <? List.length types)%nat
      then JS.slice skip (skip + limit) results else results in
    ret {| results := results; total := total |}.

End Service.

(* ------------------------------------------------------------------ *)
(** *** Faceted filters *)
(* ------------------------------------------------------------------ *)

(** The result of a filter function: the page of rows and the total. *)
Record FilterResponse (A : Type) : Type := mkFilterResponse {
  items : list A;
  totalMatches : Z
}.
Arguments mkFilterResponse {A}.
Arguments items {A}.
Arguments totalMatches {A}.

Record PolicyFilters : Type := mkPolicyFilters {
  pf_insuranceType : option (list string);
  pf_provider : option (list string);
  pf_isActive : option bool;
  pf_minAmount : option Z;
  pf_maxAmount : option Z;
  pf_startAfter : option Z;
  pf_endBefore : option Z
}.

Record ClaimFilters : Type := mkClaimFilters {
  cf_status : option (list string);
  cf_policyId : option string;
  cf_incidentDateFrom : option Z;
  cf_incidentDateTo : option Z;
  cf_minAmount : option Z;
  cf_maxAmount : option Z
}.

Record DocumentFilters : Type := mkDocumentFilters {
  df_documentType : option (list string);
  df_policyId : option string;
  df_claimId : option string;
  df_uploadDateFrom : option Z;
  df_uploadDateTo : option Z;
  df_isAnalyzed : option bool
}.

(** [if (xs && xs.length > 0) where.column = { in: xs }] *)
Definition listEntry (column : string) (xs : option (list string))
  : list whereInput :=
  match xs with
  | Some l =>
      if (0 <? List.length l)%nat
      then [Field column (InList (map SStr l))] else []
  | None => []
  end.

(** [if (b !== undefined) where.column = b] *)
Definition boolEntry (column : string) (b : option bool) : list whereInput :=
  match b with
  | Some v => [Field column (Equals (SBool v))]
  | None => []
  end.

(** [if (s) where.column = s]: an empty string is falsy. *)
Definition idEntry (column : string) (s : option string) : list whereInput :=
  match s with
  | Some v => if JS.isEmpty v then [] else [Field column (Equals (SStr v))]
  | None => []
  end.

(** A range on one column, present as soon as one bound is supplied. *)
Definition rangeEntry (column : string) (lo hi : option Z)
  : list whereInput :=
  match lo, hi with
  | None, None => []
  | _, _ => [Field column (Range lo hi)]
  end.

(** The [where] object [filterPolicies] builds. *)
Definition policyFilterWhere (uid : string) (f : PolicyFilters)
  : whereInput :=
  AND ([Field "userId" (Equals (SStr uid))]
       ++ listEntry "insuranceType" (pf_insuranceType f)
       ++ listEntry "provider" (pf_provider f)
       ++ boolEntry "isActive" (pf_isActive f)
       ++ rangeEntry "coverageAmount" (pf_minAmount f) (pf_maxAmount f)
       ++ rangeEntry "startDate" (pf_startAfter f) None
       ++ rangeEntry "endDate" None (pf_endBefore f)).

Definition filterPolicies (db : Store) (uid : string) (filters : PolicyFilters)
  (page pageSize : option Z) : Async (FilterResponse InsurancePolicy) :=
  let page := withDefault page 1 in
  let pageSize := withDefault pageSize 10 in
  let w := policyFilterWhere uid filters in
  let skip := (page - 1) * pageSize in
  '(policies, total) <-
    awaitAll2 (policyFindMany db w skip pageSize) (policyCount db w) ;;
  ret (mkFilterResponse policies total).

(** Related rows delivered through [include]. *)
Record PolicySummary : Type := mkPolicySummary {
  summary_policyNumber : string;
  summary_provider : string;
  summary_insuranceType : InsuranceType.t
}.

Record ClaimWithPolicy : Type := mkClaimWithPolicy {
  cwp_claim : Claim;
  cwp_policy : option PolicySummary
}.

Record DocumentWithRelations : Type := mkDocumentWithRelations {
  dwr_document : Document;
  dwr_policyNumber : option string;
  dwr_claimNumber : option string
}.

Definition policyById (db : Store) (pid : string) : option InsurancePolicy :=
  find (fun p => String.eqb (policy_id p) pid) (policies db).

Definition claimById (db : Store) (cid : string) : option Claim :=
  find (fun c => String.eqb (claim_id c) cid) (claims db).

(** [include: { policy: { select: { policyNumber, provider, insuranceType } } }] *)
Definition includePolicy (db : Store) (c : Claim) : ClaimWithPolicy :=
  mkClaimWithPolicy c
    (option_map
       (fun p => mkPolicySummary (policy_policyNumber p) (policy_provider p)
                                 (policy_insuranceType p))
       (policyById db (claim_policyId c))).

(** [include: { policy: { select: { policyNumber } },
                claim: { select: { claimNumber } } }] *)
Definition includeRelations (db : Store) (d : Document)
  : DocumentWithRelations :=
  mkDocumentWithRelations d
    (match document_policyId d with
     | Some pid => option_map policy_policyNumber (policyById db pid)
     | None => None
     end)
    (match document_claimId d with
     | Some cid => option_map claim_claimNumber (claimById db cid)
     | None => None
     end).

Definition mapPending {A B : Type} (f : A -> B) (p : Pending A) : Pending B :=
  mkPending (pendingCall p) (option_map f (pendingResult p)).

(** The [where] object [filterClaims] builds. *)
Definition claimFilterWhere (uid : string) (f : ClaimFilters) : whereInput :=
  AND ([Field "userId" (Equals (SStr uid))]
       ++ listEntry "status" (cf_status f)
       ++ idEntry "policyId" (cf_policyId f)
       ++ rangeEntry "incidentDate" (cf_incidentDateFrom f)
            (cf_incidentDateTo f)
       ++ rangeEntry "damageAmount" (cf_minAmount f) (cf_maxAmount f)).

Definition filterClaims (db : Store) (uid : string) (filters : ClaimFilters)
  (page pageSize : option Z) : Async (FilterResponse ClaimWithPolicy) :=
  let page := withDefault page 1 in
  let pageSize := withDefault pageSize 10 in
  let w := claimFilterWhere uid filters in
  let skip := (page - 1) * pageSize in
  '(claims, total) <-
    awaitAll2 (mapPending (map (includePolicy db))
                          (claimFindMany db w skip pageSize))
              (claimCount db w) ;;
  ret (mkFilterResponse claims total).

(** The [where] object [filterDocuments] builds. *)
Definition documentFilterWhere (uid : string) (f : DocumentFilters)
  : whereInput :=
  AND ([Field "userId" (Equals (SStr uid))]
       ++ listEntry "documentType" (df_documentType f)
       ++ idEntry "policyId" (df_policyId f)
       ++ idEntry "claimId" (df_claimId f)
       ++ boolEntry "isAnalyzed" (df_isAnalyzed f)
       ++ rangeEntry "uploadDate" (df_uploadDateFrom f) (df_uploadDateTo f)).

Definition filterDocuments (db : Store) (uid : string)
  (filters : DocumentFilters) (page pageSize : option Z)
  : Async (FilterResponse DocumentWithRelations) :=
  let page := withDefault page 1 in
  let pageSize := withDefault pageSize 10 in
  let w := documentFilterWhere uid filters in
  let skip := (page - 1) * pageSize in
  '(documents, total) <-
    awaitAll2 (mapPending (map (includeRelations db))
                          (documentFindMany db w skip pageSize))
              (documentCount db w) ;;
  ret (mkFilterResponse documents total).

(* ================================================================== *)
(** ** Specification-level notions *)
(* ================================================================== *)

Module Spec.

(** The free text is empty or consists of white space only. *)
Fixpoint whitespaceOnly (s : string) : bool :=
  match s with
  | EmptyString => true
  | String c r => (JS.isWhiteSpace c && whitespaceOnly r)%bool
  end.

(** [t] occurs in [s] as a contiguous substring. *)
Definition substring (t s : string) : Prop :=
  exists pre post, s = (pre ++ t ++ post)%string.


Definition occursb (term text : string) : bool :=
  JS.includes (JS.toLowerCase text) (JS.toLowerCase term).

(** Some term occurs in some of the texts. *)
Definition anyTermInAnyText (terms texts : list string) : bool :=
  existsb (fun term => existsb (occursb term) texts) terms.

Definition present (o : option string) : list string :=
  match o with Some s => [s] | None => [] end.

(** The designated text fields of each kind. *)
Definition policyTexts (p : InsurancePolicy) : list string :=
  [policy_policyNumber p; policy_provider p] ++ present (policy_description p).

Definition claimTexts (c : Claim) : list string :=
  [claim_claimNumber c; claim_description c].

Definition documentTexts (d : Document) : list string :=
  [document_fileName d] ++ present (document_description d).

(** The enum value of the record is the one inferred from some keyword
    term. *)
Definition inferredHolds (isKeyword : string -> bool)
  (infer : string -> string) (terms : list string) (value : string) : bool :=
  existsb (fun term => (isKeyword term && String.eqb (infer term) value)%bool)
          terms.

(** The search predicate of each kind: some term in some text field, or
    the inferred enum condition. *)
Definition policyMatches (terms : list string) (p : InsurancePolicy) : bool :=
  anyTermInAnyText terms (policyTexts p).

Definition claimTextMatches (terms : list string) (c : Claim) : bool :=
  anyTermInAnyText terms (claimTexts c).

Definition claimMatches (terms : list string) (c : Claim) : bool :=
  (claimTextMatches terms c
   || inferredHolds isStatusTerm inferStatus terms
        (ClaimStatus.name (claim_status c)))%bool.

Definition documentTextMatches (terms : list string) (d : Document) : bool :=
  anyTermInAnyText terms (documentTexts d).

Definition documentMatches (terms : list string) (d : Document) : bool :=
  (documentTextMatches terms d
   || inferredHolds isDocumentTypeTerm inferDocumentType terms
        (DocumentType.name (document_documentType d)))%bool.

(** The matching records of a user, per kind. *)
Definition policyHits (db : Store) (u : string) (terms : list string)
  : list InsurancePolicy :=
  filter (fun p => (String.eqb (policy_userId p) u && policyMatches terms p)%bool)
         (policies db).

Definition claimHits (db : Store) (u : string) (terms : list string)
  : list Claim :=
  filter (fun c => (String.eqb (claim_userId c) u && claimMatches terms c)%bool)
         (claims db).

Definition documentHits (db : Store) (u : string) (terms : list string)
  : list Document :=
  filter (fun d =>
            (String.eqb (document_userId d) u && documentMatches terms d)%bool)
         (documents db).

(** The match count of a kind. *)
Definition matchCount (db : Store) (u : string) (terms : list string)
  (k : SearchResultType.t) : Z :=
  match k with
  | SearchResultType.policy => Z.of_nat (List.length (policyHits db u terms))
  | SearchResultType.claim => Z.of_nat (List.length (claimHits db u terms))
  | SearchResultType.document =>
      Z.of_nat (List.length (documentHits db u terms))
  end.

(** The kinds a [types] array asks for, each once, in the order policy,
    claim, document. *)
Definition requestedKinds (ts : list SearchResultType.t)
  : list SearchResultType.t :=
  filter (typesInclude ts)
         [SearchResultType.policy; SearchResultType.claim;
          SearchResultType.document].

(** The user's claims whose status is APPROVED. *)
Definition approvedClaims (db : Store) (u : string) : list Claim :=
  filter (fun c =>
            (String.eqb (claim_userId c) u
             && String.eqb (ClaimStatus.name (claim_status c)) "APPROVED")%bool)
         (claims db).

Definition sumZ (l : list Z) : Z := fold_right Z.add 0 l.

(** The sum of the match counts of the requested kinds. *)
Definition totalMatchCount (db : Store) (u : string) (terms : list string)
  (ts : list SearchResultType.t) : Z :=
  sumZ (map (matchCount db u terms) (requestedKinds ts)).

(** Descending order on a key, and stability of a rearrangement: elements
    of equal key keep their relative order. *)
Definition descending {A : Type} (key : A -> Z) (l : list A) : Prop :=
  StronglySorted (fun a b => key b <= key a) l.



(** The records [skip, skip + take) of a list. *)
Definition pageOf {A : Type} (skip take : Z) (l : list A) : list A :=
  firstn (Z.to_nat take) (skipn (Z.to_nat skip) l).

(** The store queries of one kind's block of [globalSearch]: the list
    fetch and the count, under the same [where]. *)
Definition kindModel (k : SearchResultType.t) : Model :=
  match k with
  | SearchResultType.policy => MInsurancePolicy
  | SearchResultType.claim => MClaim
  | SearchResultType.document => MDocument
  end.

Definition kindWhere (u : string) (terms : list string)
  (k : SearchResultType.t) : whereInput :=
  searchWhere u
    match k with
    | SearchResultType.policy => policySearchConditions terms
    | SearchResultType.claim => claimSearchConditions terms
    | SearchResultType.document => documentSearchConditions terms
    end.

Definition findCall (u : string) (terms : list string) (skip take : Z)
  (k : SearchResultType.t) : StoreCall :=
  mkCall (kindModel k) (FindMany skip take) (kindWhere u terms k).

Definition countCall (u : string) (terms : list string)
  (k : SearchResultType.t) : StoreCall :=
  mkCall (kindModel k) Count (kindWhere u terms k).

(** The events of one kind's block: both queries are issued, then awaited
    together. *)
Definition blockTrace (u : string) (terms : list string) (skip take : Z)
  (k : SearchResultType.t) : Trace :=
  [Issue (findCall u terms skip take k); Issue (countCall u terms k);
   AwaitAll [findCall u terms skip take k; countCall u terms k]].

Section Ranked.
Variable formatBytes : Z -> string.

(** All matches of a kind for a user as search results, most recently
    modified first. *)
Definition ranked (db : Store) (u : string) (terms : list string)
  (k : SearchResultType.t) : list SearchResult :=
  match k with
  | SearchResultType.policy =>
      map policyResult (sortDesc policy_updatedAt (policyHits db u terms))
  | SearchResultType.claim =>
      map claimResult (sortDesc claim_updatedAt (claimHits db u terms))
  | SearchResultType.document =>
      map (documentResult formatBytes)
          (sortDesc document_updatedAt (documentHits db u terms))
  end.


(** What one kind's list fetch delivers under a window the store accepts. *)
Definition fetched (db : Store) (u : string) (terms : list string)
  (skip take : Z) (k : SearchResultType.t) : list SearchResult :=
  match k with
  | SearchResultType.policy =>
      map policyResult
          (windowRows skip take
             (sortDesc policy_updatedAt (policyHits db u terms)))
  | SearchResultType.claim =>
      map claimResult
          (windowRows skip take
             (sortDesc claim_updatedAt (claimHits db u terms)))
  | SearchResultType.document =>
      map (documentResult formatBytes)
          (windowRows skip take
             (sortDesc document_updatedAt (documentHits db u terms)))
  end.

End Ranked.

(** The store calls a trace issues. *)
Definition issued (t : Trace) : list StoreCall :=
  flat_map (fun e => match e with Issue c => [c] | AwaitAll _ => [] end) t.

(** The query carries the condition [userId = u] as a conjunct. *)
Definition scopedTo (u : string) (w : whereInput) : Prop :=
  exists rest, w = AND (Field "userId" (Equals (SStr u)) :: rest).

(** Every store call of the trace is scoped to [u]. *)
Definition allScoped (u : string) (t : Trace) : Prop :=
  Forall (fun c => scopedTo u (callWhere c)) (issued t).

Definition ownsPolicy (u : string) (p : InsurancePolicy) : bool :=
  String.eqb (policy_userId p) u.

Definition ownsClaim (u : string) (c : Claim) : bool :=
  String.eqb (claim_userId c) u.

Definition ownsDocument (u : string) (d : Document) : bool :=
  String.eqb (document_userId d) u.

(** Two stores that differ only in records owned by users other than
    [u]: the records of [u] are the same, in the same order. *)
Definition sameRecordsOf (u : string) (db1 db2 : Store) : Prop :=
  filter (ownsPolicy u) (policies db1) = filter (ownsPolicy u) (policies db2)
  /\ filter (ownsClaim u) (claims db1) = filter (ownsClaim u) (claims db2)
  /\ filter (ownsDocument u) (documents db1)
     = filter (ownsDocument u) (documents db2).

(** Related rows belong to the owner of the row that refers to them: the
    policy of a claim, and the policy and the claim of a document. The
    routes that create claims and documents check this before writing. *)
Definition relationsOwned (db : Store) : Prop :=
  (forall c p,
      In c (claims db) ->
      policyById db (claim_policyId c) = Some p ->
      policy_userId p = claim_userId c)
  /\ (forall d pid p,
        In d (documents db) ->
        document_policyId d = Some pid ->
        policyById db pid = Some p ->
        policy_userId p = document_userId d)
  /\ (forall d cid c,
        In d (documents db) ->
        document_claimId d = Some cid ->
        claimById db cid = Some c ->
        claim_userId c = document_userId d).

(** Absence of cross-user leakage as the specification words it: over any
    two stores that differ only in other users' records, the four
    functions answer alike. *)
Definition noCrossUserLeak (formatBytes : Z -> string) : Prop :=
  forall u db1 db2,
    sameRecordsOf u db1 db2 ->
    (forall o, userId o = u ->
               globalSearch formatBytes db1 o = globalSearch formatBytes db2 o)
    /\ (forall f pg ps,
          filterPolicies db1 u f pg ps = filterPolicies db2 u f pg ps)
    /\ (forall f pg ps,
          filterClaims db1 u f pg ps = filterClaims db2 u f pg ps)
    /\ (forall f pg ps,
          filterDocuments db1 u f pg ps = filterDocuments db2 u f pg ps).

(** Constraints of a faceted filter. A bound or flag that is absent
    constrains nothing. *)
Definition atLeast (bound : option Z) (z : Z) : Prop :=
  match bound with Some m => m <= z | None => True end.

Definition atMost (bound : option Z) (z : Z) : Prop :=
  match bound with Some m => z <= m | None => True end.

Definition equalsFlag (flag : option bool) (b : bool) : Prop :=
  match flag with Some v => b = v | None => True end.


(** List membership as the filter functions apply it: a list that is
    absent or empty constrains nothing. *)
Definition memberOfNonEmpty (allowed : option (list string)) (value : string)
  : Prop :=
  match allowed with
  | Some (x :: l) => In value (x :: l)
  | Some [] | None => True
  end.



(** The store calls of [filterPolicies]. *)
Definition policyFilterTrace (u : string) (f : PolicyFilters) (skip take : Z)
  : Trace :=
  [Issue (mkCall MInsurancePolicy (FindMany skip take) (policyFilterWhere u f));
   Issue (mkCall MInsurancePolicy Count (policyFilterWhere u f));
   AwaitAll
     [mkCall MInsurancePolicy (FindMany skip take) (policyFilterWhere u f);
      mkCall MInsurancePolicy Count (policyFilterWhere u f)]].

(** Fan-out then fan-in: once the caller has waited on some queries, it
    issues no further query. *)
Definition issuesBeforeAwaits (t : Trace) : Prop :=
  forall before after cs c,
    t = before ++ AwaitAll cs :: after -> ~ In (Issue c) after.



End Spec.

(* ================================================================== *)
(** ** Sample data (after the fixtures of [search-service.test.ts]) *)
(* ================================================================== *)

Module Fixture.

Definition policy1 : InsurancePolicy :=
  {| policy_id := "policy-1"; policy_policyNumber := "POL-001";
     policy_userId := "test-user";
     policy_insuranceType := InsuranceType.HOME;
     policy_provider := "Insurance Co";
     policy_coverageAmount := 250000; policy_premium := 1200;
     policy_startDate := 1640995200000; policy_endDate := 1704067200000;
     policy_isActive := true;
     policy_description := Some "Home Insurance, storm damage included"%string;
     policy_createdAt := 1640995200000;
     policy_updatedAt := 1672531200000 |}.

Definition claim1 : Claim :=
  {| claim_id := "claim-1"; claim_claimNumber := "CLM-001";
     claim_userId := "test-user"; claim_policyId := "policy-1";
     claim_status := ClaimStatus.APPROVED;
     claim_incidentDate := 1672000000000; claim_reportDate := 1672100000000;
     claim_description := "Water damage claim";
     claim_damageAmount := Some 5000; claim_approvedAmount := None;
     claim_rejectionReason := None;
     claim_createdAt := 1672100000000;
     claim_updatedAt := 1672617600000 |}.

Definition claim2 : Claim :=
  {| claim_id := "claim-2"; claim_claimNumber := "CLM-002";
     claim_userId := "test-user"; claim_policyId := "policy-1";
     claim_status := ClaimStatus.DRAFT;
     claim_incidentDate := 1671000000000; claim_reportDate := 1671100000000;
     claim_description := "Roof damage after the storm";
     claim_damageAmount := None; claim_approvedAmount := None;
     claim_rejectionReason := None;
     claim_createdAt := 1671100000000;
     claim_updatedAt := 1672531200000 |}.

Definition document1 : Document :=
  {| document_id := "doc-1"; document_fileName := "water-damage.jpg";
     document_fileKey := "uploads/water-damage.jpg";
     document_fileType := "image/jpeg"; document_fileSize := 1024;
     document_documentType := DocumentType.PHOTO;
     document_uploadDate := 1672704000000;
     document_description := Some "Photo of water damage"%string;
     document_userId := "test-user";
     document_policyId := Some "policy-1"%string;
     document_claimId := Some "claim-1"%string;
     document_extractedData := None; document_isAnalyzed := false;
     document_createdAt := 1672704000000;
     document_updatedAt := 1672704000000 |}.

Definition db : Store :=
  {| policies := [policy1]; claims := [claim1; claim2];
     documents := [document1] |}.

(** A policy of another user, with a given policy number. *)
Definition foreignPolicy (number : string) : InsurancePolicy :=
  {| policy_id := "policy-9"; policy_policyNumber := number;
     policy_userId := "other-user";
     policy_insuranceType := InsuranceType.AUTO;
     policy_provider := "Other Mutual";
     policy_coverageAmount := 90000; policy_premium := 800;
     policy_startDate := 1640995200000; policy_endDate := 1704067200000;
     policy_isActive := true; policy_description := None;
     policy_createdAt := 1640995200000;
     policy_updatedAt := 1672531200000 |}.

(** The three records of the test scenario. *)
Definition scenarioDb : Store :=
  {| policies := [policy1]; claims := [claim1]; documents := [document1] |}.

(** The records of the test user among records of another user. *)
Definition dbWithOthers : Store :=
  {| policies := [foreignPolicy "POL-900"; policy1];
     claims :=
       [claim1;
        mkClaim "claim-8" "CLM-008" "other-user" "policy-9"
                ClaimStatus.PAID 1672000000000 1672100000000
                "Rear bumper damage" None None None 1672100000000
                1672790400000;
        claim2];
     documents := [document1] |}.

(** A claim of the test user that points to a policy of another user,
    and a store holding both, for a given number of that policy. *)
Definition strayClaim : Claim :=
  {| claim_id := "claim-9"; claim_claimNumber := "CLM-009";
     claim_userId := "test-user"; claim_policyId := "policy-9";
     claim_status := ClaimStatus.SUBMITTED;
     claim_incidentDate := 1672000000000; claim_reportDate := 1672100000000;
     claim_description := "Windscreen damage";
     claim_damageAmount := None; claim_approvedAmount := None;
     claim_rejectionReason := None;
     claim_createdAt := 1672100000000;
     claim_updatedAt := 1672617600000 |}.

Definition strayDb (number : string) : Store :=
  {| policies := [foreignPolicy number]; claims := [strayClaim];
     documents := [] |}.

Definition formatBytes (bytes : Z) : string := "1 KB".

Definition search (q : string) (ts : option (list SearchResultType.t))
  (lim pg : option Z) : SearchOptions :=
  {| query := q; userId := "test-user"; types := ts; limit := lim;
     page := pg |}.

Definition noPolicyFilters : PolicyFilters :=
  mkPolicyFilters None None None None None None None.

Definition noClaimFilters : ClaimFilters :=
  mkClaimFilters None None None None None None.

Definition noDocumentFilters : DocumentFilters :=
  mkDocumentFilters None None None None None None.

End Fixture.

(* ================================================================== *)
(** ** Callers: the search route and the search page *)
(* ================================================================== *)

Module Caller.

(** [s.split(',')]-style splitting on one separator character: every
    separator ends a piece, so pieces may be empty and the empty string
    splits into one empty piece. *)
Fixpoint splitOnAux (sep : ascii) (cur : string) (s : string) : list string :=
  match s with
  | EmptyString => [cur]
  | String c r =>
      if Ascii.eqb c sep then cur :: splitOnAux sep EmptyString r
      else splitOnAux sep (cur ++ String c EmptyString)%string r
  end.

Definition splitOn (sep : ascii) (s : string) : list string :=
  splitOnAux sep EmptyString s.

Definition comma : ascii := ascii_of_nat 44.

(** The kind a string names, if any. *)
Definition kindOfString (s : string) : option SearchResultType.t :=
  if String.eqb s "policy" then Some SearchResultType.policy
  else if String.eqb s "claim" then Some SearchResultType.claim
  else if String.eqb s "document" then Some SearchResultType.document
  else None.

Definition kindName (k : SearchResultType.t) : string :=
  match k with
  | SearchResultType.policy => "policy"
  | SearchResultType.claim => "claim"
  | SearchResultType.document => "document"
  end.

(** [xs.filter(type => ['policy', 'claim', 'document'].includes(type))
    as SearchResultType[]]: the pieces that name a kind, read as kinds. *)
Definition keepKinds (xs : list string) : list SearchResultType.t :=
  flat_map (fun x => match kindOfString x with
                     | Some k => [k]
                     | None => []
                     end) xs.

(** The [types] value the search route ([GET /api/search]) hands to
    [globalSearch], from the value of the [types] query parameter ([None]
    when the parameter is missing); an empty value is falsy. *)
Definition routeTypes (typesParam : option string) : list SearchResultType.t :=
  match typesParam with
  | Some p => if JS.isEmpty p then defaultTypes
              else keepKinds (splitOn comma p)
  | None => defaultTypes
  end.

(** [toggleType] of the search page, on the [activeTypes] state. *)
Definition toggleType (activeTypes : list string) (type : string)
  : list string :=
  if existsb (String.eqb type) activeTypes then
    if (1 <? List.length activeTypes)%nat
    then filter (fun t => negb (String.eqb t type)) activeTypes
    else activeTypes
  else activeTypes ++ [type].

(** The initial [activeTypes] state. *)
Definition initialTypes : list string := ["policy"; "claim"; "document"]%string.

(** The value the search page sends for the [types] parameter: none when
    all three filters are active, else the active types joined by commas
    ([typeParam] without its ["&types="] prefix). *)
Definition sentTypes (activeTypes : list string) : option string :=
  if (List.length activeTypes =? 3)%nat then None
  else Some (String.concat "," activeTypes).

(** The page numbers the search page links to:
    [Array.from({ length: totalPages }, (_, i) => i + 1).filter(...)]
    with [delta = 1]. *)
Definition pageLinks (page totalPages : Z) : list Z :=
  filter (fun p => ((p =? 1) || (p =? totalPages)
                    || ((page - 1 <=? p) && (p <=? page + 1)))%bool)
         (map (fun i => Z.of_nat i + 1) (seq 0 (Z.to_nat totalPages))).

(** [showEllipsisAfter] for the link at index [i] of [arr]. *)
Definition showEllipsisAfter (arr : list Z) (i : nat) : bool :=
  ((Z.of_nat i <? Z.of_nat (List.length arr) - 1)
   && (1 <? nth (S i) arr 0 - nth i arr 0))%bool.

(** The state of the page after a series of clicks on filter buttons. *)
Definition afterClicks (clicks : list string) : list string :=
  fold_left toggleType clicks initialTypes.

End Caller.

(* ================================================================== *)
(** ** The session termination route ([POST /api/auth/session/terminate]) *)
(* ================================================================== *)

Module SessionRoute.

Record User : Type := mkUser {
  user_id : string;
  user_email : string
}.

Record Session : Type := mkSession {
  session_id : string;
  session_sessionToken : string;
  session_userId : string;
  session_expires : Z
}.

(** The two collections the route touches. *)
Record AuthStore : Type := mkAuthStore {
  users : list User;
  sessions : list Session
}.

(** A parsed JSON value. An object is given by its entries, the first
    entry of a key being the value of the key. *)
Inductive json : Type :=
| JNull
| JBool (b : bool)
| JNumber (z : Z)
| JString (s : string)
| JArray (items : list json)
| JObject (entries : list (string * json)).

Fixpoint lookupKey (key : string) (entries : list (string * json))
  : option json :=
  match entries with
  | [] => None
  | (k, v) :: r => if String.eqb k key then Some v else lookupKey key r
  end.

(** [terminateSessionSchema.safeParse(body)] for
    [z.object({ sessionId: z.string() })]: the validated [sessionId], or
    [None] when validation fails. *)
Definition safeParse (body : json) : option string :=
  match body with
  | JObject entries =>
      match lookupKey "sessionId" entries with
      | Some (JString s) => Some s
      | _ => None
      end
  | _ => None
  end.

(** What the route answers: the status and the body. *)
Inductive Body : Type :=
| ErrorBody (error : string)
| SuccessBody (message : string).

Record Response : Type := mkResponse {
  status : Z;
  body : Body
}.

(** The request as the route sees it: the server session ([None] when
    there is none, [Some None] when it carries no e-mail), and the body
    ([None] when [req.json()] throws). *)
Record Request : Type := mkRequest {
  sessionEmail : option (option string);
  requestBody : option json
}.

(** [prisma.user.findUnique({ where: { email } })] *)
Definition findUserByEmail (db : AuthStore) (email : string) : option User :=
  find (fun u => String.eqb (user_email u) email) (users db).

(** [prisma.session.findUnique({ where: { id } })] *)
Definition findSession (db : AuthStore) (id : string) : option Session :=
  find (fun s => String.eqb (session_id s) id) (sessions db).

(** [prisma.session.delete({ where: { id } })]: the store without the
    session; the client throws ([None]) when there is no such session. *)
Definition deleteSession (db : AuthStore) (id : string) : option AuthStore :=
  match findSession db id with
  | Some _ =>
      Some (mkAuthStore (users db)
              (filter (fun s => negb (String.eqb (session_id s) id))
                      (sessions db)))
  | None => None
  end.

Definition failed : Response :=
  mkResponse 500 (ErrorBody "Failed to terminate session").

(** [POST]: the response and the store afterwards. *)
Definition POST (db : AuthStore) (req : Request) : Response * AuthStore :=
  match sessionEmail req with
  | Some (Some email) =>
      if JS.isEmpty email
      then (mkResponse 401 (ErrorBody "Not authenticated"), db)
      else
        match requestBody req with
        | None => (failed, db)
        | Some parsed =>
            match safeParse parsed with
            | None => (mkResponse 400 (ErrorBody "Session ID is required"), db)
            | Some sessionId =>
                match findUserByEmail db email with
                | None => (mkResponse 404 (ErrorBody "User not found"), db)
                | Some user =>
                    match findSession db sessionId with
                    | None =>
                        (mkResponse 404 (ErrorBody "Session not found"), db)
                    | Some targetSession =>
                        if negb (String.eqb (session_userId targetSession)
                                            (user_id user))
                        then (mkResponse 403
                                (ErrorBody
                                   "Unauthorized to terminate this session"),
                              db)
                        else
                          match deleteSession db sessionId with
                          | Some db' =>
                              (mkResponse 200
                                 (SuccessBody
                                    "Session terminated successfully"),
                               db')
                          | None => (failed, db)
                          end
                    end
                end
            end
        end
  | _ => (mkResponse 401 (ErrorBody "Not authenticated"), db)
  end.

(** Session ids are primary keys. *)
Definition uniqueSessions (db : AuthStore) : Prop :=
  NoDup (map session_id (sessions db)).

(** The user the request is made for, when it is authenticated. *)
Definition caller (db : AuthStore) (req : Request) : option User :=
  match sessionEmail req with
  | Some (Some email) =>
      if JS.isEmpty email then None else findUserByEmail db email
  | _ => None
  end.

(** The session id the request names, when its body validates. *)
Definition target (req : Request) : option string :=
  match requestBody req with
  | Some parsed => safeParse parsed
  | None => None
  end.

End SessionRoute.

(* ================================================================== *)
(** ** Further specification-level notions *)
(* ================================================================== *)

Module Notion.

(** No character of the string is white space. *)
Fixpoint whitespaceFree (s : string) : bool :=
  match s with
  | EmptyString => true
  | String c r => (negb (JS.isWhiteSpace c) && whitespaceFree r)%bool
  end.

(** A search term: not empty, no white space. *)
Definition properTerm (s : string) : bool :=
  (negb (JS.isEmpty s) && whitespaceFree s)%bool.

(** Two term lists select the same records of every kind. *)
Definition sameMatches (terms terms' : list string) : Prop :=
  (forall p, Spec.policyMatches terms p = Spec.policyMatches terms' p)
  /\ (forall c, Spec.claimMatches terms c = Spec.claimMatches terms' c)
  /\ (forall d, Spec.documentMatches terms d = Spec.documentMatches terms' d).

(** The same request with another free text. *)
Definition withQuery (o : SearchOptions) (q : string) : SearchOptions :=
  mkOptions q (userId o) (types o) (limit o) (page o).







(** An id filter: an id that is absent or empty constrains nothing. *)
Definition idFilter (wanted : option string) (value : option string) : Prop :=
  match wanted with
  | Some s => if JS.isEmpty s then True else value = Some s
  | None => True
  end.

(** A range on a column that may be null: once a bound is supplied, a row
    without a value is out. *)
Definition withinOptional (lo hi : option Z) (value : option Z) : Prop :=
  match lo, hi with
  | None, None => True
  | _, _ =>
      match value with
      | Some z => Spec.atLeast lo z /\ Spec.atMost hi z
      | None => False
      end
  end.

(** A claim meets the constraints of a [ClaimFilters]. *)
Definition claimSatisfies (f : ClaimFilters) (c : Claim) : Prop :=
  Spec.memberOfNonEmpty (cf_status f) (ClaimStatus.name (claim_status c))
  /\ idFilter (cf_policyId f) (Some (claim_policyId c))
  /\ Spec.atLeast (cf_incidentDateFrom f) (claim_incidentDate c)
  /\ Spec.atMost (cf_incidentDateTo f) (claim_incidentDate c)
  /\ withinOptional (cf_minAmount f) (cf_maxAmount f) (claim_damageAmount c).

(** A document meets the constraints of a [DocumentFilters]. *)
Definition documentSatisfies (f : DocumentFilters) (d : Document) : Prop :=
  Spec.memberOfNonEmpty (df_documentType f)
    (DocumentType.name (document_documentType d))
  /\ idFilter (df_policyId f) (document_policyId d)
  /\ idFilter (df_claimId f) (document_claimId d)
  /\ Spec.equalsFlag (df_isAnalyzed f) (document_isAnalyzed d)
  /\ Spec.atLeast (df_uploadDateFrom f) (document_uploadDate d)
  /\ Spec.atMost (df_uploadDateTo f) (document_uploadDate d).




End Notion.

(* ================================================================== *)
(** ** The policy filter route ([GET /api/policies/filter]) *)
(* ================================================================== *)

Module PolicyRoute.




End PolicyRoute.

(* ================================================================== *)
(** * Properties *)
(* ================================================================== *)

(* ================================================================== *)
(** ** Tokenizer *)
(* ================================================================== *)

Lemma trimStart_whitespaceOnly (s : string) :
  Spec.whitespaceOnly s = true -> JS.trimStart s = EmptyString.
Proof.
  induction s as [|c r IH]; simpl; [reflexivity|].
  intros H. apply andb_prop in H as [Hc Hr]. rewrite Hc. now apply IH.
Qed.

Lemma trimStart_head (s : string) :
  Spec.whitespaceOnly s = false ->
  exists c r, JS.trimStart s = String c r /\ JS.isWhiteSpace c = false.
Proof.
  induction s as [|c r IH]; simpl; [discriminate|].
  destruct (JS.isWhiteSpace c) eqn:Hc; simpl; intros H.
  - now apply IH.
  - now exists c, r.
Qed.

Lemma splitAux_keeps_piece (s : string) :
  forall inRun cur, JS.isEmpty cur = false ->
    JS.filterBoolean (JS.splitAux inRun cur s) <> [].
Proof.
  induction s as [|c r IH]; intros inRun cur Hcur; simpl.
  - unfold JS.filterBoolean; simpl. now rewrite Hcur.
  - destruct (JS.isWhiteSpace c).
    + destruct inRun.
      * now apply IH.
      * unfold JS.filterBoolean; simpl. now rewrite Hcur.
    + apply IH. now destruct cur.
Qed.

(** The tokenizer yields no term exactly on the empty and the
    white-space-only texts. *)
Lemma tokenize_nil_iff (q : string) :
  tokenize q = [] <-> Spec.whitespaceOnly q = true.
Proof.
  split.
  - intros H. destruct (Spec.whitespaceOnly q) eqn:Hq; [reflexivity|].
    exfalso. destruct (trimStart_head q Hq) as (c & r & Ht & Hc).
    revert H. unfold tokenize, JS.trim, JS.splitWhitespace.
    rewrite Ht. simpl. rewrite Hc. simpl. rewrite Hc.
    now apply splitAux_keeps_piece.
  - intros H. unfold tokenize, JS.trim.
    now rewrite (trimStart_whitespaceOnly q H).
Qed.

Example tokenize_keeps_order_and_duplicates :
  tokenize "  water   damage water "
  = ["water"; "damage"; "water"]%string.
Proof. reflexivity. Qed.

Example tokenize_tabs_and_newlines :
  tokenize (String (ascii_of_nat 9) (String (ascii_of_nat 10) "x")) = ["x"%string].
Proof. reflexivity. Qed.

(* ================================================================== *)
(** ** Lists and the stable sort *)
(* ================================================================== *)

Lemma existsb_map_compose {A B : Type} (f : B -> bool) (g : A -> B)
  (l : list A) : existsb f (map g l) = existsb (fun a => f (g a)) l.
Proof. induction l as [|a l IH]; simpl; [reflexivity|now rewrite IH]. Qed.

Lemma existsb_orb_split {A : Type} (f g : A -> bool) (l : list A) :
  existsb (fun a => (f a || g a)%bool) l = (existsb f l || existsb g l)%bool.
Proof.
  induction l as [|a l IH]; simpl; [reflexivity|].
  rewrite IH. destruct (f a), (g a), (existsb f l); reflexivity.
Qed.

Lemma existsb_ext_eq {A : Type} (f g : A -> bool) (l : list A) :
  (forall a, f a = g a) -> existsb f l = existsb g l.
Proof.
  intros H. induction l as [|a l IH]; simpl; [reflexivity|].
  now rewrite H, IH.
Qed.

Lemma filter_ext_eq {A : Type} (f g : A -> bool) (l : list A) :
  (forall a, f a = g a) -> filter f l = filter g l.
Proof. intros H. apply filter_ext_in. intros a _. apply H. Qed.

Section SortFacts.
Context {A : Type} (key : A -> Z).

Lemma insertDesc_perm (x : A) (l : list A) :
  Permutation (insertDesc key x l) (x :: l).
Proof.
  induction l as [|y r IH]; simpl; [apply Permutation_refl|].
  destruct (key y <=? key x); [apply Permutation_refl|].
  eapply Permutation_trans; [apply perm_skip, IH | apply perm_swap].
Qed.

Lemma sortDesc_perm (l : list A) : Permutation (sortDesc key l) l.
Proof.
  induction l as [|x r IH]; simpl; [constructor|].
  eapply Permutation_trans; [apply insertDesc_perm | now apply perm_skip].
Qed.

Lemma sortDesc_In (l : list A) (a : A) : In a (sortDesc key l) <-> In a l.
Proof.
  split; apply Permutation_in;
    [apply sortDesc_perm | apply Permutation_sym, sortDesc_perm].
Qed.

Lemma insertDesc_descending (x : A) (l : list A) :
  Spec.descending key l -> Spec.descending key (insertDesc key x l).
Proof.
  unfold Spec.descending.
  induction l as [|y r IH]; simpl; intros Hs.
  - repeat constructor.
  - destruct (key y <=? key x) eqn:Hle.
    + apply Z.leb_le in Hle. constructor; [exact Hs|].
      constructor; [exact Hle|].
      apply StronglySorted_inv in Hs as [_ Hall].
      eapply Forall_impl; [|exact Hall]. simpl. intros; lia.
    + apply Z.leb_gt in Hle.
      apply StronglySorted_inv in Hs as [Hr Hall].
      constructor; [now apply IH|].
      eapply Permutation_Forall;
        [apply Permutation_sym, insertDesc_perm|].
      constructor; [lia | exact Hall].
Qed.

Lemma sortDesc_descending (l : list A) : Spec.descending key (sortDesc key l).
Proof.
  induction l as [|x r IH]; simpl; [constructor|].
  now apply insertDesc_descending.
Qed.





Lemma descending_skipn (n : nat) (l : list A) :
  Spec.descending key l -> Spec.descending key (skipn n l).
Proof.
  unfold Spec.descending. revert l.
  induction n as [|n IH]; intros l Hs; [exact Hs|].
  destruct l as [|x r]; [constructor|].
  simpl. apply IH. now apply StronglySorted_inv in Hs.
Qed.

Lemma descending_firstn (n : nat) (l : list A) :
  Spec.descending key l -> Spec.descending key (firstn n l).
Proof.
  unfold Spec.descending. revert l.
  induction n as [|n IH]; intros l Hs; [constructor|].
  destruct l as [|x r]; [constructor|].
  apply StronglySorted_inv in Hs as [Hr Hall].
  simpl. constructor; [now apply IH|].
  apply Forall_forall. intros a Ha.
  rewrite Forall_forall in Hall. apply Hall.
  rewrite <- (firstn_skipn n r). apply in_or_app. now left.
Qed.


End SortFacts.


(* ================================================================== *)
(** ** Substrings *)
(* ================================================================== *)




(* ================================================================== *)
(** ** The search conditions and the search predicates *)
(* ================================================================== *)

Lemma eval_createSearchCondition (row : string -> scalar) (field : string)
  (terms : list string) :
  eval row (createSearchCondition field terms)
  = existsb (fun term => evalFilter (ContainsInsensitive term) (row field))
            terms.
Proof.
  destruct terms as [|t [|t' r]]; simpl.
  - reflexivity.
  - now rewrite orb_false_r.
  - f_equal. f_equal. apply existsb_map_compose.
Qed.

Lemma eval_contains_text (row : string -> scalar) (field text : string)
  (terms : list string) :
  row field = SStr text ->
  eval row (createSearchCondition field terms)
  = existsb (fun term => Spec.occursb term text) terms.
Proof.
  intros H. rewrite eval_createSearchCondition, H. reflexivity.
Qed.

Lemma eval_contains_optional (row : string -> scalar) (field : string)
  (text : option string) (terms : list string) :
  row field = optStr text ->
  eval row (createSearchCondition field terms)
  = existsb (fun term => existsb (Spec.occursb term) (Spec.present text)) terms.
Proof.
  intros H. rewrite eval_createSearchCondition, H.
  destruct text as [s|]; simpl.
  - apply existsb_ext_eq. intros a. now rewrite orb_false_r.
  - apply existsb_ext_eq. reflexivity.
Qed.

Lemma eval_inferredCondition (row : string -> scalar) (column value : string)
  (isKeyword : string -> bool) (infer : string -> string)
  (terms : list string) :
  row column = SStr value ->
  existsb (eval row) (inferredCondition column isKeyword infer terms)
  = Spec.inferredHolds isKeyword infer terms value.
Proof.
  intros Hrow. unfold inferredCondition, Spec.inferredHolds.
  assert (Hin : existsb (scalar_eqb (SStr value))
                  (map (fun term => SStr (infer term)) (filter isKeyword terms))
                = existsb (fun term =>
                            (isKeyword term && String.eqb (infer term) value)%bool)
                          terms).
  { induction terms as [|t r IH]; simpl; [reflexivity|].
    destruct (isKeyword t); simpl; [|exact IH].
    rewrite IH. now rewrite (String.eqb_sym value). }
  destruct (existsb isKeyword terms) eqn:Hk; simpl.
  - rewrite Hrow. simpl. rewrite Hin. apply orb_false_r.
  - symmetry. rewrite <- Hin.
    assert (Hnil : filter isKeyword terms = []).
    { clear Hin. induction terms as [|t r IH]; simpl in *; [reflexivity|].
      apply orb_false_elim in Hk as [Ht Hr]. rewrite Ht. now apply IH. }
    now rewrite Hnil.
Qed.

Lemma policyConditions_eval (terms : list string) (p : InsurancePolicy) :
  existsb (eval (policyColumns p)) (policySearchConditions terms)
  = Spec.policyMatches terms p.
Proof.
  unfold policySearchConditions, Spec.policyMatches, Spec.anyTermInAnyText,
    Spec.policyTexts.
  simpl existsb at 1.
  rewrite (eval_contains_text _ _ (policy_policyNumber p)) by reflexivity.
  rewrite (eval_contains_text _ _ (policy_provider p)) by reflexivity.
  rewrite (eval_contains_optional _ _ (policy_description p)) by reflexivity.
  rewrite orb_false_r, <- !existsb_orb_split.
  apply existsb_ext_eq. intros t. reflexivity.
Qed.

Lemma claimTextConditions_eval (terms : list string) (c : Claim) :
  existsb (eval (claimColumns c)) (claimTextConditions terms)
  = Spec.claimTextMatches terms c.
Proof.
  unfold claimTextConditions, Spec.claimTextMatches, Spec.anyTermInAnyText,
    Spec.claimTexts.
  simpl existsb at 1.
  rewrite (eval_contains_text _ _ (claim_claimNumber c)) by reflexivity.
  rewrite (eval_contains_text _ _ (claim_description c)) by reflexivity.
  rewrite orb_false_r, <- !existsb_orb_split.
  apply existsb_ext_eq. intros t. simpl. now rewrite orb_false_r.
Qed.

Lemma claimConditions_eval (terms : list string) (c : Claim) :
  existsb (eval (claimColumns c)) (claimSearchConditions terms)
  = Spec.claimMatches terms c.
Proof.
  unfold claimSearchConditions, Spec.claimMatches.
  rewrite existsb_app, claimTextConditions_eval. f_equal.
  now apply eval_inferredCondition.
Qed.

Lemma documentTextConditions_eval (terms : list string) (d : Document) :
  existsb (eval (documentColumns d)) (documentTextConditions terms)
  = Spec.documentTextMatches terms d.
Proof.
  unfold documentTextConditions, Spec.documentTextMatches,
    Spec.anyTermInAnyText, Spec.documentTexts.
  simpl existsb at 1.
  rewrite (eval_contains_text _ _ (document_fileName d)) by reflexivity.
  rewrite (eval_contains_optional _ _ (document_description d)) by reflexivity.
  rewrite orb_false_r, <- !existsb_orb_split.
  apply existsb_ext_eq. intros t. reflexivity.
Qed.

Lemma documentConditions_eval (terms : list string) (d : Document) :
  existsb (eval (documentColumns d)) (documentSearchConditions terms)
  = Spec.documentMatches terms d.
Proof.
  unfold documentSearchConditions, Spec.documentMatches.
  rewrite existsb_app, documentTextConditions_eval. f_equal.
  now apply eval_inferredCondition.
Qed.

(* ================================================================== *)
(** ** The store queries of the search *)
(* ================================================================== *)

Lemma eval_searchWhere (row : string -> scalar) (u : string)
  (conditions : list whereInput) :
  eval row (searchWhere u conditions)
  = (scalar_eqb (row "userId"%string) (SStr u)
     && existsb (eval row) conditions)%bool.
Proof. simpl. now rewrite andb_true_r. Qed.

Lemma matching_policies (db : Store) (u : string) (terms : list string) :
  matching policyColumns (Spec.kindWhere u terms SearchResultType.policy)
           (policies db)
  = Spec.policyHits db u terms.
Proof.
  apply filter_ext_eq. intros p. unfold Spec.kindWhere.
  now rewrite eval_searchWhere, policyConditions_eval.
Qed.

Lemma matching_claims (db : Store) (u : string) (terms : list string) :
  matching claimColumns (Spec.kindWhere u terms SearchResultType.claim)
           (claims db)
  = Spec.claimHits db u terms.
Proof.
  apply filter_ext_eq. intros c. unfold Spec.kindWhere.
  now rewrite eval_searchWhere, claimConditions_eval.
Qed.

Lemma matching_documents (db : Store) (u : string) (terms : list string) :
  matching documentColumns (Spec.kindWhere u terms SearchResultType.document)
           (documents db)
  = Spec.documentHits db u terms.
Proof.
  apply filter_ext_eq. intros d. unfold Spec.kindWhere.
  now rewrite eval_searchWhere, documentConditions_eval.
Qed.

Section Run.
Variable formatBytes : Z -> string.

(** [globalSearch] on a text with at least one term, under a window the
    store accepts: the response and the events, in closed form. *)
Lemma globalSearch_run (db : Store) (o : SearchOptions) :
  let ts := withDefault (types o) defaultTypes in
  let lim := withDefault (limit o) 20 in
  let skip := (withDefault (page o) 1 - 1) * lim in
  let fetchSkip := if (List.length ts =? 1)%nat then skip else 0 in
  let terms := tokenize (query o) in
  let pool :=
    List.concat (map (Spec.fetched formatBytes db (userId o) terms fetchSkip lim)
                     (Spec.requestedKinds ts)) in
  let sorted := sortDesc result_date pool in
  terms <> [] ->
  0 <= fetchSkip ->
  globalSearch formatBytes db o
  = (Some {| results := if (1 <? List.length ts)%nat
                        then JS.slice skip (skip + lim) sorted else sorted;
             total := Spec.totalMatchCount db (userId o) terms ts |},
     List.concat (map (Spec.blockTrace (userId o) terms fetchSkip lim)
                      (Spec.requestedKinds ts))).
Proof.
  intros ts lim skip fetchSkip terms pool sorted Hterms Hskip.
  subst pool sorted. unfold globalSearch.
  fold ts. fold lim. fold skip. fold terms. fold fetchSkip.
  assert (Hlen : (List.length terms =? 0)%nat = false)
    by (destruct terms; [congruence|reflexivity]).
  rewrite Hlen.
  unfold Spec.totalMatchCount, Spec.requestedKinds.
  unfold awaitAll2, policyFindMany, policyCount, claimFindMany, claimCount,
    documentFindMany, documentCount, findManyRows, countRows, window.
  assert (Hneg : (fetchSkip <? 0) = false) by (apply Z.ltb_ge; exact Hskip).
  rewrite Hneg.
  change (searchWhere (userId o) (policySearchConditions terms))
    with (Spec.kindWhere (userId o) terms SearchResultType.policy).
  change (searchWhere (userId o) (claimSearchConditions terms))
    with (Spec.kindWhere (userId o) terms SearchResultType.claim).
  change (searchWhere (userId o) (documentSearchConditions terms))
    with (Spec.kindWhere (userId o) terms SearchResultType.document).
  rewrite !matching_policies, !matching_claims, !matching_documents.
  cbn [filter].
  destruct (typesInclude ts SearchResultType.policy),
    (typesInclude ts SearchResultType.claim),
    (typesInclude ts SearchResultType.document);
    cbn [bind ret pendingCall pendingResult map List.concat app fst snd
         Spec.sumZ fold_right Spec.matchCount Spec.fetched];
    rewrite ?app_nil_r, ?Z.add_0_r, ?Z.add_0_l, <- ?app_assoc, <- ?Z.add_assoc;
    reflexivity.
Qed.

(** With one entry in [types] and a negative [skip], the store client
    rejects the list fetch and the search throws. *)
Lemma globalSearch_rejected (db : Store) (o : SearchOptions) :
  let ts := withDefault (types o) defaultTypes in
  let skip := (withDefault (page o) 1 - 1) * withDefault (limit o) 20 in
  let fetchSkip := if (List.length ts =? 1)%nat then skip else 0 in
  tokenize (query o) <> [] ->
  fetchSkip < 0 ->
  fst (globalSearch formatBytes db o) = None.
Proof.
  intros ts skip fetchSkip Hterms Hneg.
  unfold globalSearch. fold ts. fold skip. fold fetchSkip.
  assert (Hlen : (List.length (tokenize (query o)) =? 0)%nat = false)
    by (destruct (tokenize (query o)); [congruence|reflexivity]).
  rewrite Hlen.
  unfold awaitAll2, policyFindMany, claimFindMany, documentFindMany,
    findManyRows, window.
  apply Z.ltb_lt in Hneg. rewrite Hneg.
  destruct ts as [|k [|k' r]];
    [subst fetchSkip; simpl in Hneg; discriminate | |
     subst fetchSkip; simpl in Hneg; discriminate].
  destruct k; reflexivity.
Qed.

Lemma globalSearch_accepted (db : Store) (o : SearchOptions)
  (resp : SearchResponse) :
  let ts := withDefault (types o) defaultTypes in
  let skip := (withDefault (page o) 1 - 1) * withDefault (limit o) 20 in
  tokenize (query o) <> [] ->
  fst (globalSearch formatBytes db o) = Some resp ->
  0 <= (if (List.length ts =? 1)%nat then skip else 0).
Proof.
  intros ts skip Hterms Hresp.
  destruct (Z.lt_ge_cases (if (List.length ts =? 1)%nat then skip else 0) 0)
    as [Hneg|Hok]; [|exact Hok].
  rewrite (globalSearch_rejected db o Hterms Hneg) in Hresp. discriminate.
Qed.

(** The events of a search with at least one term, whatever the window:
    one block per requested kind. *)
Lemma globalSearch_trace (db : Store) (o : SearchOptions) :
  let ts := withDefault (types o) defaultTypes in
  let lim := withDefault (limit o) 20 in
  let skip := (withDefault (page o) 1 - 1) * lim in
  let fetchSkip := if (List.length ts =? 1)%nat then skip else 0 in
  tokenize (query o) <> [] ->
  snd (globalSearch formatBytes db o)
  = List.concat (map (Spec.blockTrace (userId o) (tokenize (query o))
                        fetchSkip lim)
                     (Spec.requestedKinds ts)).
Proof.
  intros ts lim skip fetchSkip Hterms.
  destruct (Z.lt_ge_cases fetchSkip 0) as [Hneg|Hok].
  - unfold globalSearch. fold ts. fold lim. fold skip. fold fetchSkip.
    assert (Hlen : (List.length (tokenize (query o)) =? 0)%nat = false)
      by (destruct (tokenize (query o)); [congruence|reflexivity]).
    rewrite Hlen.
    unfold awaitAll2, policyFindMany, claimFindMany, documentFindMany,
      findManyRows, window.
    apply Z.ltb_lt in Hneg. rewrite Hneg.
    destruct ts as [|k [|k' r]];
      [subst fetchSkip; simpl in Hneg; discriminate | |
       subst fetchSkip; simpl in Hneg; discriminate].
    destruct k; reflexivity.
  - now rewrite (globalSearch_run db o Hterms Hok).
Qed.


End Run.

(* ================================================================== *)
(** ** Windows and pages *)
(* ================================================================== *)

Lemma windowRows_pageOf {R : Type} (skip take : Z) (l : list R) :
  0 <= take -> windowRows skip take l = Spec.pageOf skip take l.
Proof.
  intros H. unfold windowRows, Spec.pageOf.
  apply Z.leb_le in H. now rewrite H.
Qed.




Lemma pageOf_length {A : Type} (skip take : Z) (l : list A) :
  (List.length (Spec.pageOf skip take l) <= Z.to_nat take)%nat.
Proof. unfold Spec.pageOf. apply firstn_le_length. Qed.

Lemma firstn_In {A : Type} (n : nat) (l : list A) (a : A) :
  In a (firstn n l) -> In a l.
Proof.
  intros H. rewrite <- (firstn_skipn n l). apply in_or_app. now left.
Qed.

Lemma skipn_In {A : Type} (n : nat) (l : list A) (a : A) :
  In a (skipn n l) -> In a l.
Proof.
  intros H. rewrite <- (firstn_skipn n l). apply in_or_app. now right.
Qed.



Lemma NoDup_map_filter {A B : Type} (f : A -> B) (g : A -> bool)
  (l : list A) : NoDup (map f l) -> NoDup (map f (filter g l)).
Proof.
  induction l as [|a l IH]; simpl; intros H; [constructor|].
  inversion H as [|? ? Hnotin Hnd]; subst.
  destruct (g a); simpl; [|now apply IH].
  constructor; [|now apply IH].
  intros Hin. apply Hnotin. apply in_map_iff in Hin as (b & Hb & Hin).
  apply in_map_iff. exists b. split; [exact Hb|].
  now apply filter_In in Hin as [Hin _].
Qed.


Section Ranking.
Variable formatBytes : Z -> string.





End Ranking.

(* ================================================================== *)
(** ** User scope *)
(* ================================================================== *)

Section Scope.
Context {R : Type} (columns : R -> string -> scalar) (owner : R -> string).
Hypothesis owner_column : forall r, columns r "userId"%string = SStr (owner r).

Lemma eval_scoped (u : string) (w : whereInput) (r : R) :
  Spec.scopedTo u w -> eval (columns r) w = true -> owner r = u.
Proof.
  intros [rest ->] H. simpl in H. rewrite owner_column in H.
  apply andb_prop in H as [H _]. now apply String.eqb_eq.
Qed.

(** A scoped query sees only the rows of its user. *)
Lemma matching_scoped (u : string) (w : whereInput) (rows : list R) :
  Spec.scopedTo u w ->
  matching columns w rows
  = matching columns w (filter (fun r => String.eqb (owner r) u) rows).
Proof.
  intros Hw. unfold matching.
  induction rows as [|r rows IH]; simpl; [reflexivity|].
  destruct (String.eqb (owner r) u) eqn:Hr; simpl.
  - now rewrite IH.
  - destruct (eval (columns r) w) eqn:He; [|exact IH].
    apply (eval_scoped u w r Hw) in He.
    apply String.eqb_neq in Hr. contradiction.
Qed.

Lemma matching_same_view (u : string) (w : whereInput) (rows rows' : list R) :
  Spec.scopedTo u w ->
  filter (fun r => String.eqb (owner r) u) rows
  = filter (fun r => String.eqb (owner r) u) rows' ->
  matching columns w rows = matching columns w rows'.
Proof.
  intros Hw Hview.
  rewrite (matching_scoped u w rows Hw), (matching_scoped u w rows' Hw).
  now rewrite Hview.
Qed.

Lemma matching_owned (u : string) (w : whereInput) (rows : list R) (r : R) :
  Spec.scopedTo u w -> In r (matching columns w rows) ->
  In r rows /\ owner r = u.
Proof.
  intros Hw Hr. apply filter_In in Hr as [Hin He].
  split; [exact Hin | exact (eval_scoped u w r Hw He)].
Qed.

End Scope.

Lemma windowRows_In {R : Type} (skip take : Z) (l : list R) (r : R) :
  In r (windowRows skip take l) -> In r l.
Proof.
  unfold windowRows. destruct (0 <=? take); intros H.
  - eapply skipn_In, firstn_In, H.
  - apply in_rev in H. apply firstn_In, skipn_In in H. now apply in_rev.
Qed.

Lemma findManyRows_In {R : Type} (columns : R -> string -> scalar)
  (updatedAt : R -> Z) (w : whereInput) (skip take : Z) (rows found : list R)
  (r : R) :
  findManyRows columns updatedAt w skip take rows = Some found ->
  In r found -> In r (matching columns w rows).
Proof.
  unfold findManyRows, window. destruct (skip <? 0); [discriminate|].
  intros [= <-] H. apply windowRows_In in H. now apply sortDesc_In in H.
Qed.

Lemma find_in_view {A : Type} (g h : A -> bool) (l : list A) :
  (forall a, find g l = Some a -> h a = true) ->
  find g l = find g (filter h l).
Proof.
  induction l as [|a l IH]; simpl; intros H; [reflexivity|].
  destruct (g a) eqn:Hg.
  - rewrite (H a eq_refl). simpl. now rewrite Hg.
  - rewrite (IH H). destruct (h a); simpl; [now rewrite Hg|reflexivity].
Qed.

Lemma searchWhere_scoped (u : string) (conditions : list whereInput) :
  Spec.scopedTo u (searchWhere u conditions).
Proof. now exists [OR conditions]. Qed.

Lemma policyFilterWhere_scoped (u : string) (f : PolicyFilters) :
  Spec.scopedTo u (policyFilterWhere u f).
Proof. eexists. reflexivity. Qed.

Lemma claimFilterWhere_scoped (u : string) (f : ClaimFilters) :
  Spec.scopedTo u (claimFilterWhere u f).
Proof. eexists. reflexivity. Qed.

Lemma documentFilterWhere_scoped (u : string) (f : DocumentFilters) :
  Spec.scopedTo u (documentFilterWhere u f).
Proof. eexists. reflexivity. Qed.

Section SameView.
Variables (u : string) (db1 db2 : Store).
Hypothesis view : Spec.sameRecordsOf u db1 db2.

Lemma policy_matching_view (w : whereInput) :
  Spec.scopedTo u w ->
  matching policyColumns w (policies db1)
  = matching policyColumns w (policies db2).
Proof.
  intros Hw. apply (matching_same_view policyColumns policy_userId) with u;
    [reflexivity | exact Hw | apply view].
Qed.

Lemma claim_matching_view (w : whereInput) :
  Spec.scopedTo u w ->
  matching claimColumns w (claims db1) = matching claimColumns w (claims db2).
Proof.
  intros Hw. apply (matching_same_view claimColumns claim_userId) with u;
    [reflexivity | exact Hw | apply view].
Qed.

Lemma document_matching_view (w : whereInput) :
  Spec.scopedTo u w ->
  matching documentColumns w (documents db1)
  = matching documentColumns w (documents db2).
Proof.
  intros Hw.
  apply (matching_same_view documentColumns document_userId) with u;
    [reflexivity | exact Hw | apply view].
Qed.

Lemma policyFindMany_view (w : whereInput) (skip take : Z) :
  Spec.scopedTo u w ->
  policyFindMany db1 w skip take = policyFindMany db2 w skip take.
Proof.
  intros Hw. unfold policyFindMany, findManyRows.
  now rewrite (policy_matching_view w Hw).
Qed.

Lemma policyCount_view (w : whereInput) :
  Spec.scopedTo u w -> policyCount db1 w = policyCount db2 w.
Proof.
  intros Hw. unfold policyCount, countRows.
  now rewrite (policy_matching_view w Hw).
Qed.

Lemma claimFindMany_view (w : whereInput) (skip take : Z) :
  Spec.scopedTo u w ->
  claimFindMany db1 w skip take = claimFindMany db2 w skip take.
Proof.
  intros Hw. unfold claimFindMany, findManyRows.
  now rewrite (claim_matching_view w Hw).
Qed.

Lemma claimCount_view (w : whereInput) :
  Spec.scopedTo u w -> claimCount db1 w = claimCount db2 w.
Proof.
  intros Hw. unfold claimCount, countRows.
  now rewrite (claim_matching_view w Hw).
Qed.

Lemma documentFindMany_view (w : whereInput) (skip take : Z) :
  Spec.scopedTo u w ->
  documentFindMany db1 w skip take = documentFindMany db2 w skip take.
Proof.
  intros Hw. unfold documentFindMany, findManyRows.
  now rewrite (document_matching_view w Hw).
Qed.

Lemma documentCount_view (w : whereInput) :
  Spec.scopedTo u w -> documentCount db1 w = documentCount db2 w.
Proof.
  intros Hw. unfold documentCount, countRows.
  now rewrite (document_matching_view w Hw).
Qed.

Lemma globalSearch_view (formatBytes : Z -> string) (o : SearchOptions) :
  userId o = u ->
  globalSearch formatBytes db1 o = globalSearch formatBytes db2 o.
Proof.
  intros Hu. unfold globalSearch. rewrite Hu.
  rewrite !(policyFindMany_view _ _ _ (searchWhere_scoped u _)).
  rewrite !(policyCount_view _ (searchWhere_scoped u _)).
  rewrite !(claimFindMany_view _ _ _ (searchWhere_scoped u _)).
  rewrite !(claimCount_view _ (searchWhere_scoped u _)).
  rewrite !(documentFindMany_view _ _ _ (searchWhere_scoped u _)).
  rewrite !(documentCount_view _ (searchWhere_scoped u _)).
  reflexivity.
Qed.

Lemma filterPolicies_view (f : PolicyFilters) (pg ps : option Z) :
  filterPolicies db1 u f pg ps = filterPolicies db2 u f pg ps.
Proof.
  unfold filterPolicies.
  rewrite (policyFindMany_view _ _ _ (policyFilterWhere_scoped u f)).
  rewrite (policyCount_view _ (policyFilterWhere_scoped u f)).
  reflexivity.
Qed.

Hypothesis owned1 : Spec.relationsOwned db1.
Hypothesis owned2 : Spec.relationsOwned db2.

Lemma policyById_view (pid : string) :
  (forall p, policyById db1 pid = Some p -> policy_userId p = u) ->
  (forall p, policyById db2 pid = Some p -> policy_userId p = u) ->
  policyById db1 pid = policyById db2 pid.
Proof.
  intros H1 H2. unfold policyById in *.
  rewrite (find_in_view _ (Spec.ownsPolicy u) (policies db1)),
    (find_in_view _ (Spec.ownsPolicy u) (policies db2)).
  - now destruct view as (-> & _).
  - intros p Hp. apply String.eqb_eq. now apply H2.
  - intros p Hp. apply String.eqb_eq. now apply H1.
Qed.

Lemma claimById_view (cid : string) :
  (forall c, claimById db1 cid = Some c -> claim_userId c = u) ->
  (forall c, claimById db2 cid = Some c -> claim_userId c = u) ->
  claimById db1 cid = claimById db2 cid.
Proof.
  intros H1 H2. unfold claimById in *.
  rewrite (find_in_view _ (Spec.ownsClaim u) (claims db1)),
    (find_in_view _ (Spec.ownsClaim u) (claims db2)).
  - now destruct view as (_ & -> & _).
  - intros c Hc. apply String.eqb_eq. now apply H2.
  - intros c Hc. apply String.eqb_eq. now apply H1.
Qed.

Lemma claim_in_both (c : Claim) :
  In c (claims db1) -> claim_userId c = u -> In c (claims db2).
Proof.
  intros Hin Hu. destruct view as (_ & Hc & _).
  assert (H : In c (filter (Spec.ownsClaim u) (claims db1))).
  { apply filter_In. split; [exact Hin|]. now apply String.eqb_eq. }
  rewrite Hc in H. now apply filter_In in H.
Qed.

Lemma document_in_both (d : Document) :
  In d (documents db1) -> document_userId d = u -> In d (documents db2).
Proof.
  intros Hin Hu. destruct view as (_ & _ & Hd).
  assert (H : In d (filter (Spec.ownsDocument u) (documents db1))).
  { apply filter_In. split; [exact Hin|]. now apply String.eqb_eq. }
  rewrite Hd in H. now apply filter_In in H.
Qed.

Lemma includePolicy_view (c : Claim) :
  In c (claims db1) -> claim_userId c = u ->
  includePolicy db1 c = includePolicy db2 c.
Proof.
  intros Hin Hu. unfold includePolicy. f_equal. f_equal.
  apply policyById_view; intros p Hp; rewrite <- Hu.
  - now apply (proj1 owned1 c p).
  - apply (proj1 owned2 c p); [now apply claim_in_both | exact Hp].
Qed.

Lemma includeRelations_view (d : Document) :
  In d (documents db1) -> document_userId d = u ->
  includeRelations db1 d = includeRelations db2 d.
Proof.
  intros Hin Hu. pose proof (document_in_both d Hin Hu) as Hin2.
  destruct owned1 as (_ & Hp1 & Hc1), owned2 as (_ & Hp2 & Hc2).
  unfold includeRelations. f_equal.
  - destruct (document_policyId d) as [pid|] eqn:Hpid; [|reflexivity].
    f_equal. apply policyById_view; intros p Hp; rewrite <- Hu.
    + now apply (Hp1 d pid p).
    + now apply (Hp2 d pid p).
  - destruct (document_claimId d) as [cid|] eqn:Hcid; [|reflexivity].
    f_equal. apply claimById_view; intros c Hc; rewrite <- Hu.
    + now apply (Hc1 d cid c).
    + now apply (Hc2 d cid c).
Qed.

Lemma filterClaims_view (f : ClaimFilters) (pg ps : option Z) :
  filterClaims db1 u f pg ps = filterClaims db2 u f pg ps.
Proof.
  unfold filterClaims.
  pose proof (claimFilterWhere_scoped u f) as Hw.
  rewrite <- (claimFindMany_view _ _ _ Hw), <- (claimCount_view _ Hw).
  unfold mapPending, awaitAll2. cbn [pendingCall pendingResult claimFindMany].
  destruct (findManyRows _ _ _ _ _ (claims db1)) as [found|] eqn:Hfound;
    [|reflexivity].
  cbn [option_map].
  rewrite (map_ext_in (includePolicy db1) (includePolicy db2)); [reflexivity|].
  intros c Hc. apply (findManyRows_In _ _ _ _ _ _ _ c Hfound) in Hc.
  apply (matching_owned claimColumns claim_userId (fun _ => eq_refl) u) in Hc
    as [Hin Hu]; [|exact Hw].
  now apply includePolicy_view.
Qed.

Lemma filterDocuments_view (f : DocumentFilters) (pg ps : option Z) :
  filterDocuments db1 u f pg ps = filterDocuments db2 u f pg ps.
Proof.
  unfold filterDocuments.
  pose proof (documentFilterWhere_scoped u f) as Hw.
  rewrite <- (documentFindMany_view _ _ _ Hw), <- (documentCount_view _ Hw).
  unfold mapPending, awaitAll2.
  cbn [pendingCall pendingResult documentFindMany].
  destruct (findManyRows _ _ _ _ _ (documents db1)) as [found|] eqn:Hfound;
    [|reflexivity].
  cbn [option_map].
  rewrite (map_ext_in (includeRelations db1) (includeRelations db2));
    [reflexivity|].
  intros d Hd. apply (findManyRows_In _ _ _ _ _ _ _ d Hfound) in Hd.
  apply (matching_owned documentColumns document_userId (fun _ => eq_refl) u)
    in Hd as [Hin Hu]; [|exact Hw].
  now apply includeRelations_view.
Qed.

End SameView.

(* ================================================================== *)
(** ** Claims about [globalSearch] *)
(* ================================================================== *)

(** The scenarios of [search-service.test.ts]: the default search over
    the three kinds merges by date, most recent first, and a search
    restricted to claims touches the claim collection only. *)
Example scenario_default_search :
  option_map (fun r => (map result_id (results r), total r))
    (fst (globalSearch Fixture.formatBytes Fixture.scenarioDb
            (Fixture.search "damage" None None None)))
  = Some (["doc-1"; "claim-1"; "policy-1"]%string, 3).
Proof. reflexivity. Qed.

Example scenario_claims_only :
  option_map (fun r => (map result_id (results r), total r))
    (fst (globalSearch Fixture.formatBytes Fixture.scenarioDb
            (Fixture.search "damage" (Some [SearchResultType.claim])
               None None)))
  = Some (["claim-1"%string], 1)
  /\ map callModel
        (Spec.issued
           (snd (globalSearch Fixture.formatBytes Fixture.scenarioDb
                   (Fixture.search "damage" (Some [SearchResultType.claim])
                      None None))))
     = [MClaim; MClaim].
Proof. split; reflexivity. Qed.

Example inferStatus_first_keyword_wins :
  inferStatus "Paid-or-approved" = "APPROVED"%string
  /\ inferStatus "reviewed" = "UNDER_REVIEW"%string.
Proof. split; reflexivity. Qed.








Example one_term_in_one_field_suffices :
  eval (claimColumns Fixture.claim1)
       (OR (claimSearchConditions ["zebra"; "DAMAGE"]%string)) = true
  /\ eval (policyColumns Fixture.policy1)
          (OR (policySearchConditions ["pol-0"; "mutual"]%string)) = true.
Proof. split; reflexivity. Qed.

Lemma matching_incl {R : Type} (columns : R -> string -> scalar)
  (w w' : whereInput) (rows : list R) :
  (forall r, eval (columns r) w = true -> eval (columns r) w' = true) ->
  incl (matching columns w rows) (matching columns w' rows).
Proof.
  intros H r Hr. unfold matching in *.
  apply filter_In in Hr as [Hin Hw]. apply filter_In. split; auto.
Qed.

Lemma searchWhere_widen (row : string -> scalar) (u : string)
  (conditions extra : list whereInput) :
  eval row (searchWhere u conditions) = true ->
  eval row (searchWhere u (conditions ++ extra)) = true.
Proof.
  rewrite !eval_searchWhere, existsb_app. intros H.
  apply andb_prop in H as [-> ->]. reflexivity.
Qed.

(** C7. Keyword inference only widens. The claim (document) conditions are
    the text conditions followed by the inferred condition; when some term
    is a status (document type) keyword, the inferred condition is the one
    extra alternative "status (documentType) in the inferred values";
    every record that satisfies the query without it satisfies the query
    with it, so the match set with inference contains the match set
    without. *)
Theorem inference_only_widens (u : string) (terms : list string) :
  (claimSearchConditions terms
   = claimTextConditions terms
     ++ inferredCondition "status" isStatusTerm inferStatus terms
   /\ (existsb isStatusTerm terms = true ->
       inferredCondition "status" isStatusTerm inferStatus terms
       = [Field "status"
            (InList (map (fun term => SStr (inferStatus term))
                         (filter isStatusTerm terms)))])
   /\ (forall c : Claim,
         eval (claimColumns c) (searchWhere u (claimTextConditions terms))
         = true ->
         eval (claimColumns c) (searchWhere u (claimSearchConditions terms))
         = true)
   /\ (forall rows : list Claim,
         incl (matching claimColumns
                 (searchWhere u (claimTextConditions terms)) rows)
              (matching claimColumns
                 (searchWhere u (claimSearchConditions terms)) rows)))
  /\ (documentSearchConditions terms
      = documentTextConditions terms
        ++ inferredCondition "documentType" isDocumentTypeTerm
             inferDocumentType terms
      /\ (existsb isDocumentTypeTerm terms = true ->
          inferredCondition "documentType" isDocumentTypeTerm
            inferDocumentType terms
          = [Field "documentType"
               (InList (map (fun term => SStr (inferDocumentType term))
                            (filter isDocumentTypeTerm terms)))])
      /\ (forall d : Document,
            eval (documentColumns d)
                 (searchWhere u (documentTextConditions terms)) = true ->
            eval (documentColumns d)
                 (searchWhere u (documentSearchConditions terms)) = true)
      /\ (forall rows : list Document,
            incl (matching documentColumns
                    (searchWhere u (documentTextConditions terms)) rows)
                 (matching documentColumns
                    (searchWhere u (documentSearchConditions terms)) rows))).
Proof.
  split.
  - split; [reflexivity|]. split; [|split].
    + intros H. unfold inferredCondition. now rewrite H.
    + intros c. apply searchWhere_widen.
    + intros rows. apply matching_incl. intros c. apply searchWhere_widen.
  - split; [reflexivity|]. split; [|split].
    + intros H. unfold inferredCondition. now rewrite H.
    + intros d. apply searchWhere_widen.
    + intros rows. apply matching_incl. intros d. apply searchWhere_widen.
Qed.

Lemma inference_only_widens_witness :
  existsb isStatusTerm ["approved"%string] = true
  /\ inferredCondition "status" isStatusTerm inferStatus ["approved"%string]
     = [Field "status" (InList [SStr "APPROVED"])].
Proof.
  split; [reflexivity|].
  destruct (inference_only_widens "test-user" ["approved"%string])
    as [(_ & H & _) _].
  exact (H eq_refl).
Defined.

Lemma filter_length_incl {A : Type} (f g : A -> bool) (l : list A) :
  (forall a, f a = true -> g a = true) ->
  (List.length (filter f l) <= List.length (filter g l))%nat.
Proof.
  intros H. induction l as [|a l IH]; simpl; [lia|].
  destruct (f a) eqn:Hf.
  - rewrite (H a Hf). simpl. lia.
  - destruct (g a); simpl; lia.
Qed.

Lemma sumZ_member (l : list Z) (x : Z) :
  Forall (fun z => 0 <= z) l -> In x l -> x <= Spec.sumZ l.
Proof.
  induction l as [|y r IH]; intros Hall Hin; [contradiction|].
  apply Forall_cons_iff in Hall as [Hy Hr]. simpl.
  assert (0 <= Spec.sumZ r).
  { clear -Hr. induction Hr; simpl; lia. }
  destruct Hin as [->|Hin]; [lia|].
  specialize (IH Hr Hin). lia.
Qed.

Lemma matchCount_nonneg (db : Store) (u : string) (terms : list string)
  (k : SearchResultType.t) : 0 <= Spec.matchCount db u terms k.
Proof. destruct k; simpl; lia. Qed.

Lemma requestedKinds_In (ts : list SearchResultType.t)
  (k : SearchResultType.t) :
  In k (Spec.requestedKinds ts) <-> typesInclude ts k = true.
Proof.
  unfold Spec.requestedKinds. rewrite filter_In. split; [tauto|].
  intros H. split; [|exact H]. destruct k; simpl; tauto.
Qed.

Lemma approved_matches (c : Claim) :
  claim_status c = ClaimStatus.APPROVED ->
  Spec.claimMatches ["approved"%string] c = true.
Proof.
  intros H. unfold Spec.claimMatches. apply orb_true_iff. right.
  rewrite H. reflexivity.
Qed.

(** C8. When the free text consists solely of the term "approved", every
    claim of the requesting user whose status is APPROVED satisfies the
    claim query (user scope and search predicate), whatever its text
    fields contain; it is among the records the claim count counts, so
    when the requested kinds include claim, the returned total is at least
    the number of the user's APPROVED claims. *)
Theorem approved_keyword_finds_approved_claims (formatBytes : Z -> string)
  (db : Store) (o : SearchOptions) :
  tokenize (query o) = ["approved"%string] ->
  (forall c : Claim,
      claim_userId c = userId o ->
      claim_status c = ClaimStatus.APPROVED ->
      eval (claimColumns c)
           (searchWhere (userId o) (claimSearchConditions (tokenize (query o))))
      = true)
  /\ incl (Spec.approvedClaims db (userId o))
          (matching claimColumns
             (searchWhere (userId o)
                (claimSearchConditions (tokenize (query o))))
             (claims db))
  /\ (typesInclude (withDefault (types o) defaultTypes)
                   SearchResultType.claim = true ->
      forall resp,
        fst (globalSearch formatBytes db o) = Some resp ->
        Z.of_nat (List.length (Spec.approvedClaims db (userId o)))
        <= total resp).
Proof.
  intros Hq.
  assert (Hmatch : forall c : Claim,
             claim_userId c = userId o ->
             claim_status c = ClaimStatus.APPROVED ->
             eval (claimColumns c)
                  (searchWhere (userId o)
                     (claimSearchConditions (tokenize (query o)))) = true).
  { intros c Hu Hs. rewrite Hq, eval_searchWhere, claimConditions_eval.
    rewrite (approved_matches c Hs), andb_true_r.
    change (claimColumns c "userId"%string) with (SStr (claim_userId c)).
    simpl. rewrite Hu. apply String.eqb_refl. }
  assert (Hstatus : forall c : Claim,
             String.eqb (ClaimStatus.name (claim_status c)) "APPROVED" = true ->
             claim_status c = ClaimStatus.APPROVED).
  { intros c. destruct (claim_status c); simpl; intros H;
      try discriminate; reflexivity. }
  split; [exact Hmatch|]. split.
  - intros c Hc. unfold Spec.approvedClaims in Hc.
    apply filter_In in Hc as [Hin Hc]. apply andb_prop in Hc as [Hu Hs].
    apply String.eqb_eq in Hu. apply filter_In. split; [exact Hin|].
    apply Hmatch; [exact Hu | now apply Hstatus].
  - intros Hclaim resp Hresp.
    assert (Hterms : tokenize (query o) <> []) by (rewrite Hq; discriminate).
    pose proof (globalSearch_accepted formatBytes db o resp Hterms Hresp)
      as Hok.
    rewrite (globalSearch_run formatBytes db o Hterms Hok) in Hresp.
    simpl in Hresp. injection Hresp as <-. cbn [total].
    unfold Spec.totalMatchCount.
    apply Z.le_trans
      with (Spec.matchCount db (userId o) (tokenize (query o))
              SearchResultType.claim).
    + cbn [Spec.matchCount]. apply inj_le.
      unfold Spec.approvedClaims, Spec.claimHits.
      apply filter_length_incl. intros c Hc.
      apply andb_prop in Hc as [Hu Hs]. rewrite Hu, Hq.
      now rewrite (approved_matches c (Hstatus c Hs)).
    + apply sumZ_member.
      * apply Forall_map, Forall_forall. intros k _.
        apply matchCount_nonneg.
      * apply in_map. now apply requestedKinds_In.
Qed.

Lemma approved_keyword_finds_approved_claims_witness :
  tokenize (query (Fixture.search "approved" None None None))
  = ["approved"%string]
  /\ In Fixture.claim1
        (matching claimColumns
           (searchWhere "test-user" (claimSearchConditions ["approved"%string]))
           (claims Fixture.db)).
Proof.
  split; [reflexivity|].
  destruct (approved_keyword_finds_approved_claims Fixture.formatBytes
              Fixture.db (Fixture.search "approved" None None None) eq_refl)
    as (_ & Hincl & _).
  apply Hincl. simpl. left. reflexivity.
Defined.

Lemma typesInclude_In (ts : list SearchResultType.t)
  (k : SearchResultType.t) : typesInclude ts k = true -> In k ts.
Proof.
  unfold typesInclude. intros H. apply existsb_exists in H as (x & Hx & He).
  destruct k, x; try discriminate; exact Hx.
Qed.

(** A [types] array is at least as long as the number of kinds it asks
    for. *)
Lemma requestedKinds_length (ts : list SearchResultType.t) :
  (List.length (Spec.requestedKinds ts) <= List.length ts)%nat.
Proof.
  apply NoDup_incl_length.
  - unfold Spec.requestedKinds. apply NoDup_filter.
    repeat (constructor; [simpl; intuition discriminate|]). constructor.
  - intros k Hk. apply filter_In in Hk as [_ Hk]. now apply typesInclude_In.
Qed.




(** One kind listed twice, second page of one-record pages: the list
    fetch runs with [skip = 0], the response is empty and the total is 2,
    while the second page of the ranked claims holds the second claim. *)
Example repeated_kind_second_page :
  globalSearch Fixture.formatBytes Fixture.db
    (Fixture.search "damage"
       (Some [SearchResultType.claim; SearchResultType.claim])
       (Some 1) (Some 2))
  = (Some {| results := []; total := 2 |},
     Spec.blockTrace "test-user" ["damage"%string] 0 1 SearchResultType.claim)
  /\ Spec.pageOf 1 1
       (Spec.ranked Fixture.formatBytes Fixture.db "test-user"
          ["damage"%string] SearchResultType.claim)
     = [claimResult Fixture.claim2].
Proof. split; reflexivity. Qed.





Lemma awaitAll2_scoped {A B : Type} (u : string) (p : Pending A)
  (q : Pending B) :
  Spec.scopedTo u (callWhere (pendingCall p)) ->
  Spec.scopedTo u (callWhere (pendingCall q)) ->
  Spec.allScoped u (snd (awaitAll2 p q)).
Proof. intros Hp Hq. repeat constructor; assumption. Qed.

Lemma allScoped_app (u : string) (t t' : Trace) :
  Spec.allScoped u t -> Spec.allScoped u t' -> Spec.allScoped u (t ++ t').
Proof.
  unfold Spec.allScoped, Spec.issued. rewrite flat_map_app.
  intros H H'. apply Forall_app. now split.
Qed.

Lemma bind_scoped {A B : Type} (u : string) (m : Async A)
  (k : A -> Async B) :
  Spec.allScoped u (snd m) ->
  (forall a, Spec.allScoped u (snd (k a))) ->
  Spec.allScoped u (snd (bind m k)).
Proof.
  intros Hm Hk. destruct m as [[a|] t]; simpl in *; [|exact Hm].
  specialize (Hk a). destruct (k a) as [r t']. simpl in *.
  now apply allScoped_app.
Qed.

Lemma ret_scoped {A : Type} (u : string) (a : A) :
  Spec.allScoped u (snd (ret a)).
Proof. constructor. Qed.

Lemma globalSearch_scoped (formatBytes : Z -> string) (db : Store)
  (o : SearchOptions) :
  Spec.allScoped (userId o) (snd (globalSearch formatBytes db o)).
Proof.
  unfold globalSearch.
  destruct (List.length (tokenize (query o)) =? 0)%nat; [apply ret_scoped|].
  repeat (apply bind_scoped;
          [ match goal with
            | |- context [if ?b then _ else _] => destruct b
            end;
            [ apply bind_scoped;
              [ apply awaitAll2_scoped; apply searchWhere_scoped
              | intros [? ?]; apply ret_scoped ]
            | apply ret_scoped ]
          | intros [? ?] ]).
  apply ret_scoped.
Qed.

Lemma filterPolicies_scoped (db : Store) (u : string) (f : PolicyFilters)
  (pg ps : option Z) :
  Spec.allScoped u (snd (filterPolicies db u f pg ps)).
Proof.
  unfold filterPolicies. apply bind_scoped.
  - apply awaitAll2_scoped; apply policyFilterWhere_scoped.
  - intros [? ?]. apply ret_scoped.
Qed.

Lemma filterClaims_scoped (db : Store) (u : string) (f : ClaimFilters)
  (pg ps : option Z) :
  Spec.allScoped u (snd (filterClaims db u f pg ps)).
Proof.
  unfold filterClaims. apply bind_scoped.
  - apply awaitAll2_scoped; apply claimFilterWhere_scoped.
  - intros [? ?]. apply ret_scoped.
Qed.

Lemma filterDocuments_scoped (db : Store) (u : string) (f : DocumentFilters)
  (pg ps : option Z) :
  Spec.allScoped u (snd (filterDocuments db u f pg ps)).
Proof.
  unfold filterDocuments. apply bind_scoped.
  - apply awaitAll2_scoped; apply documentFilterWhere_scoped.
  - intros [? ?]. apply ret_scoped.
Qed.

(** A claim of the test user that points to a policy of another user:
    the policy number in the answer of [filterClaims] is read from that
    policy. *)
Example stray_claim_answers :
  option_map (fun r => map cwp_policy (items r))
    (fst (filterClaims (Fixture.strayDb "POL-900") "test-user"
            Fixture.noClaimFilters None None))
  = Some [Some (mkPolicySummary "POL-900" "Other Mutual" InsuranceType.AUTO)]
  /\ option_map (fun r => map cwp_policy (items r))
       (fst (filterClaims (Fixture.strayDb "POL-901") "test-user"
               Fixture.noClaimFilters None None))
     = Some [Some (mkPolicySummary "POL-901" "Other Mutual" InsuranceType.AUTO)].
Proof. split; reflexivity. Qed.

(** C1 as stated fails: the related rows that [filterClaims] delivers
    through [include] are looked up by id alone. Two stores that differ
    only in the number of a policy of another user, to which a claim of the
    requesting user points, give different answers. *)
Lemma include_reads_foreign_policy :
  ~ Spec.noCrossUserLeak Fixture.formatBytes.
Proof.
  intros H.
  destruct (H "test-user"%string (Fixture.strayDb "POL-900")
              (Fixture.strayDb "POL-901"))
    as (_ & _ & Hclaims & _).
  - repeat split.
  - specialize (Hclaims Fixture.noClaimFilters None None).
    vm_compute in Hclaims. discriminate Hclaims.
Qed.

(** C1, amended. Every store query that [globalSearch], [filterPolicies],
    [filterClaims] and [filterDocuments] issue carries the condition
    [userId = requesting user]. Over two stores that differ only in records
    owned by other users, [globalSearch] and [filterPolicies] return the
    same response (results, total and queries issued); so do
    [filterClaims] and [filterDocuments] when, in both stores, the policy
    of each claim and the policy and claim of each document belong to the
    owner of the referring record. *)
Theorem responses_depend_on_own_records (formatBytes : Z -> string)
  (u : string) (db1 db2 : Store) :
  Spec.sameRecordsOf u db1 db2 ->
  (forall o,
      userId o = u ->
      Spec.allScoped u (snd (globalSearch formatBytes db1 o))
      /\ globalSearch formatBytes db1 o = globalSearch formatBytes db2 o)
  /\ (forall f pg ps,
        Spec.allScoped u (snd (filterPolicies db1 u f pg ps))
        /\ filterPolicies db1 u f pg ps = filterPolicies db2 u f pg ps)
  /\ (forall f pg ps, Spec.allScoped u (snd (filterClaims db1 u f pg ps)))
  /\ (forall f pg ps, Spec.allScoped u (snd (filterDocuments db1 u f pg ps)))
  /\ (Spec.relationsOwned db1 -> Spec.relationsOwned db2 ->
      (forall f pg ps,
          filterClaims db1 u f pg ps = filterClaims db2 u f pg ps)
      /\ (forall f pg ps,
            filterDocuments db1 u f pg ps = filterDocuments db2 u f pg ps)).
Proof.
  intros Hview. split; [|split; [|split; [|split]]].
  - intros o Hu. split.
    + rewrite <- Hu. apply globalSearch_scoped.
    + now apply globalSearch_view with u.
  - intros f pg ps. split.
    + apply filterPolicies_scoped.
    + now apply filterPolicies_view.
  - intros f pg ps. apply filterClaims_scoped.
  - intros f pg ps. apply filterDocuments_scoped.
  - intros H1 H2. split; intros f pg ps.
    + now apply filterClaims_view.
    + now apply filterDocuments_view.
Qed.

Lemma fixture_sameRecords :
  Spec.sameRecordsOf "test-user" Fixture.db Fixture.dbWithOthers.
Proof. repeat split. Qed.

Lemma fixture_relationsOwned : Spec.relationsOwned Fixture.db.
Proof.
  split; [|split].
  - intros c p [<-|[<-|[]]] Hp; vm_compute in Hp; injection Hp as <-;
      reflexivity.
  - intros d pid p [<-|[]] Hpid Hp. injection Hpid as <-.
    vm_compute in Hp. injection Hp as <-. reflexivity.
  - intros d cid c [<-|[]] Hcid Hc. injection Hcid as <-.
    vm_compute in Hc. injection Hc as <-. reflexivity.
Qed.

Lemma fixture_others_relationsOwned : Spec.relationsOwned Fixture.dbWithOthers.
Proof.
  split; [|split].
  - intros c p [<-|[<-|[<-|[]]]] Hp; vm_compute in Hp; injection Hp as <-;
      reflexivity.
  - intros d pid p [<-|[]] Hpid Hp. injection Hpid as <-.
    vm_compute in Hp. injection Hp as <-. reflexivity.
  - intros d cid c [<-|[]] Hcid Hc. injection Hcid as <-.
    vm_compute in Hc. injection Hc as <-. reflexivity.
Qed.

Lemma responses_depend_on_own_records_witness :
  Spec.sameRecordsOf "test-user" Fixture.db Fixture.dbWithOthers
  /\ globalSearch Fixture.formatBytes Fixture.db
       (Fixture.search "damage" None None None)
     = globalSearch Fixture.formatBytes Fixture.dbWithOthers
         (Fixture.search "damage" None None None)
  /\ filterClaims Fixture.db "test-user" Fixture.noClaimFilters None None
     = filterClaims Fixture.dbWithOthers "test-user" Fixture.noClaimFilters
         None None.
Proof.
  split; [exact fixture_sameRecords|].
  destruct (responses_depend_on_own_records Fixture.formatBytes "test-user"
              Fixture.db Fixture.dbWithOthers fixture_sameRecords)
    as (Hsearch & _ & _ & _ & Hrelated).
  split.
  - apply (Hsearch (Fixture.search "damage" None None None)). reflexivity.
  - apply (Hrelated fixture_relationsOwned fixture_others_relationsOwned).
Defined.

(* ================================================================== *)
(** ** Faceted filters *)
(* ================================================================== *)

Lemma existsb_SStr (value : string) (l : list string) :
  existsb (scalar_eqb (SStr value)) (map SStr l) = true <-> In value l.
Proof.
  rewrite existsb_exists. split.
  - intros (x & Hx & He). apply in_map_iff in Hx as (s & <- & Hs).
    simpl in He. apply String.eqb_eq in He. now subst.
  - intros H. exists (SStr value). split; [now apply in_map|].
    simpl. apply String.eqb_refl.
Qed.

Lemma listEntry_eval (row : string -> scalar) (column value : string)
  (allowed : option (list string)) :
  row column = SStr value ->
  forallb (eval row) (listEntry column allowed) = true
  <-> Spec.memberOfNonEmpty allowed value.
Proof.
  intros Hrow. destruct allowed as [[|x l]|]; [simpl; tauto | | simpl; tauto].
  unfold listEntry. cbn [List.length Nat.ltb Nat.leb forallb eval].
  rewrite Hrow. cbn [evalFilter Spec.memberOfNonEmpty].
  rewrite andb_true_r. apply existsb_SStr.
Qed.

Lemma boolEntry_eval (row : string -> scalar) (column : string) (b : bool)
  (flag : option bool) :
  row column = SBool b ->
  forallb (eval row) (boolEntry column flag) = true
  <-> Spec.equalsFlag flag b.
Proof.
  intros Hrow. destruct flag as [v|]; simpl; [|tauto].
  rewrite Hrow. simpl. rewrite andb_true_r. apply Bool.eqb_true_iff.
Qed.

Lemma rangeEntry_eval (row : string -> scalar) (column : string) (z : Z)
  (lo hi : option Z) :
  row column = SInt z ->
  forallb (eval row) (rangeEntry column lo hi) = true
  <-> Spec.atLeast lo z /\ Spec.atMost hi z.
Proof.
  intros Hrow. destruct lo as [l|], hi as [h|]; simpl; rewrite ?Hrow; simpl;
    rewrite ?andb_true_r, ?andb_true_iff, ?Z.leb_le; tauto.
Qed.


(** An empty insurance-type list: the query is the user scope alone and
    the user's policy is returned. *)
Example empty_list_filter_answer :
  filterPolicies Fixture.db "test-user"
    (mkPolicyFilters (Some []) None None None None None None) None None
  = (Some (mkFilterResponse [Fixture.policy1] 1),
     Spec.policyFilterTrace "test-user" Fixture.noPolicyFilters 0 10)
  /\ policyFilterWhere "test-user"
       (mkPolicyFilters (Some []) None None None None None None)
     = AND [Field "userId" (Equals (SStr "test-user"))].
Proof. split; reflexivity. Qed.




(** C10 as stated fails: with more than one kind requested, the queries of
    the claim block are issued after the caller has waited for the policy
    queries to complete. *)
Lemma kinds_are_searched_in_sequence :
  ~ Spec.issuesBeforeAwaits
      (snd (globalSearch Fixture.formatBytes Fixture.db
              (Fixture.search "damage" None None None))).
Proof.
  intros H.
  refine (H (firstn 2 (Spec.blockTrace "test-user" ["damage"%string] 0 20
                         SearchResultType.policy))
            _ _
            (Spec.findCall "test-user" ["damage"%string] 0 20
               SearchResultType.claim) _ _).
  - vm_compute. reflexivity.
  - left. reflexivity.
Qed.

(** C10, amended. A search with at least one term causes, for each
    requested kind in the order policy, claim, document, one block of
    events: the list fetch and the count of that kind are issued together
    and awaited together. The blocks follow one another: the queries of a
    kind are issued only after the caller has waited for the queries of
    the kinds before it. *)
Theorem kind_blocks_run_in_sequence (formatBytes : Z -> string) (db : Store)
  (o : SearchOptions) :
  let ts := withDefault (types o) defaultTypes in
  let lim := withDefault (limit o) 20 in
  let skip := (withDefault (page o) 1 - 1) * lim in
  let fetchSkip := if (List.length ts =? 1)%nat then skip else 0 in
  let terms := tokenize (query o) in
  let block := Spec.blockTrace (userId o) terms fetchSkip lim in
  terms <> [] ->
  snd (globalSearch formatBytes db o)
  = List.concat (map block (Spec.requestedKinds ts))
  /\ (forall k,
        block k
        = [Issue (Spec.findCall (userId o) terms fetchSkip lim k);
           Issue (Spec.countCall (userId o) terms k);
           AwaitAll [Spec.findCall (userId o) terms fetchSkip lim k;
                     Spec.countCall (userId o) terms k]])
  /\ (forall earlier k later,
        Spec.requestedKinds ts = earlier ++ k :: later ->
        snd (globalSearch formatBytes db o)
        = List.concat (map block earlier) ++ block k
          ++ List.concat (map block later)).
Proof.
  intros ts lim skip fetchSkip terms block Hterms.
  pose proof (globalSearch_trace formatBytes db o Hterms) as Htrace.
  split; [exact Htrace|]. split; [reflexivity|].
  intros earlier k later Hkinds.
  rewrite Htrace. fold ts. rewrite Hkinds, map_app, concat_app. reflexivity.
Qed.

Lemma kind_blocks_run_in_sequence_witness :
  snd (globalSearch Fixture.formatBytes Fixture.db
         (Fixture.search "damage"
            (Some [SearchResultType.claim; SearchResultType.policy])
            None None))
  = Spec.blockTrace "test-user" ["damage"%string] 0 20 SearchResultType.policy
    ++ Spec.blockTrace "test-user" ["damage"%string] 0 20
         SearchResultType.claim.
Proof.
  destruct (kind_blocks_run_in_sequence Fixture.formatBytes Fixture.db
              (Fixture.search "damage"
                 (Some [SearchResultType.claim; SearchResultType.policy])
                 None None))
    as (Htrace & _).
  - discriminate.
  - rewrite Htrace. reflexivity.
Defined.

(* ================================================================== *)
(** * Further properties *)
(* ================================================================== *)

(* ------------------------------------------------------------------ *)
(** ** The tokenizer *)
(* ------------------------------------------------------------------ *)

Lemma str_app_assoc (a b c : string) :
  ((a ++ b) ++ c = a ++ (b ++ c))%string.
Proof. induction a as [|x a IH]; simpl; [reflexivity|now rewrite IH]. Qed.

Lemma str_app_nil_r (a : string) : (a ++ EmptyString)%string = a.
Proof. induction a as [|x a IH]; simpl; [reflexivity|now rewrite IH]. Qed.

Lemma whitespaceFree_app (s t : string) :
  Notion.whitespaceFree (s ++ t)
  = (Notion.whitespaceFree s && Notion.whitespaceFree t)%bool.
Proof.
  induction s as [|c r IH]; simpl; [reflexivity|].
  rewrite IH. now rewrite andb_assoc.
Qed.

Lemma splitAux_pieces (s : string) :
  forall inRun cur,
    Notion.whitespaceFree cur = true ->
    Forall (fun piece => Notion.whitespaceFree piece = true)
           (JS.splitAux inRun cur s).
Proof.
  induction s as [|c r IH]; intros inRun cur Hcur; simpl.
  - now constructor.
  - destruct (JS.isWhiteSpace c) eqn:Hc.
    + destruct inRun; [now apply IH|].
      constructor; [exact Hcur | now apply IH].
    + apply IH. rewrite whitespaceFree_app, Hcur. simpl. now rewrite Hc.
Qed.

(** X1. Every term the tokenizer delivers is non-empty and free of white
    space, whatever the free text. *)
Theorem tokenize_terms_proper (q : string) :
  Forall (fun term => Notion.properTerm term = true) (tokenize q).
Proof.
  unfold tokenize, JS.filterBoolean. apply Forall_forall. intros t Ht.
  apply filter_In in Ht as [Hin Hne].
  unfold Notion.properTerm. rewrite Hne. simpl.
  pose proof (splitAux_pieces (JS.trim q) false EmptyString eq_refl) as H.
  rewrite Forall_forall in H. now apply H.
Qed.










Lemma trim_empty_iff (q : string) :
  JS.trim q = EmptyString <-> Spec.whitespaceOnly q = true.
Proof.
  split.
  - intros H. destruct (Spec.whitespaceOnly q) eqn:Hq; [reflexivity|].
    destruct (trimStart_head q Hq) as (c & r & Ht & Hc).
    unfold JS.trim in H. rewrite Ht in H. simpl in H. rewrite Hc in H.
    discriminate.
  - intros H. unfold JS.trim. now rewrite (trimStart_whitespaceOnly q H).
Qed.

(** X3. The search runs its queries exactly when the trimmed free text is not
    empty: [tokenize] yields no term if and only if [query.trim()] is the
    empty string, the test by which the search page and the search bar
    decide not to send a request. *)
Theorem no_term_iff_trim_empty (q : string) :
  tokenize q = [] <-> JS.trim q = EmptyString.
Proof. rewrite tokenize_nil_iff, trim_empty_iff. reflexivity. Qed.

(* ------------------------------------------------------------------ *)
(** ** The free text of a search: letter case, order and number of terms *)
(* ------------------------------------------------------------------ *)

Lemma lowerChar_idem (c : ascii) : JS.lowerChar (JS.lowerChar c) = JS.lowerChar c.
Proof. destruct c as [[] [] [] [] [] [] [] []]; reflexivity. Qed.

Lemma upperChar_lowerChar (c : ascii) :
  JS.upperChar (JS.lowerChar c) = JS.upperChar c.
Proof. destruct c as [[] [] [] [] [] [] [] []]; reflexivity. Qed.

Lemma isWhiteSpace_lowerChar (c : ascii) :
  JS.isWhiteSpace (JS.lowerChar c) = JS.isWhiteSpace c.
Proof. destruct c as [[] [] [] [] [] [] [] []]; reflexivity. Qed.

Lemma toLowerCase_idem (s : string) :
  JS.toLowerCase (JS.toLowerCase s) = JS.toLowerCase s.
Proof.
  induction s as [|c r IH]; simpl; [reflexivity|].
  unfold JS.toLowerCase in *. simpl. now rewrite IH, lowerChar_idem.
Qed.

Lemma toUpperCase_toLowerCase (s : string) :
  JS.toUpperCase (JS.toLowerCase s) = JS.toUpperCase s.
Proof.
  induction s as [|c r IH]; simpl; [reflexivity|].
  unfold JS.toLowerCase, JS.toUpperCase in *. simpl.
  now rewrite IH, upperChar_lowerChar.
Qed.

Lemma mapString_app (f : ascii -> ascii) (s t : string) :
  JS.mapString f (s ++ t) = (JS.mapString f s ++ JS.mapString f t)%string.
Proof. induction s as [|c r IH]; simpl; [reflexivity|now rewrite IH]. Qed.

Lemma isEmpty_mapString (f : ascii -> ascii) (s : string) :
  JS.isEmpty (JS.mapString f s) = JS.isEmpty s.
Proof. now destruct s. Qed.

Lemma trimStart_lower (s : string) :
  JS.trimStart (JS.toLowerCase s) = JS.toLowerCase (JS.trimStart s).
Proof.
  unfold JS.toLowerCase. induction s as [|c r IH]; simpl; [reflexivity|].
  rewrite isWhiteSpace_lowerChar. now destruct (JS.isWhiteSpace c).
Qed.

Lemma trimEnd_lower (s : string) :
  JS.trimEnd (JS.toLowerCase s) = JS.toLowerCase (JS.trimEnd s).
Proof.
  unfold JS.toLowerCase. induction s as [|c r IH]; simpl; [reflexivity|].
  rewrite IH, isWhiteSpace_lowerChar, isEmpty_mapString.
  now destruct (JS.isWhiteSpace c && JS.isEmpty (JS.trimEnd r))%bool.
Qed.

Lemma splitAux_lower (s : string) :
  forall inRun cur,
    JS.splitAux inRun (JS.toLowerCase cur) (JS.toLowerCase s)
    = map JS.toLowerCase (JS.splitAux inRun cur s).
Proof.
  unfold JS.toLowerCase. induction s as [|c r IH]; intros inRun cur; simpl.
  - reflexivity.
  - rewrite isWhiteSpace_lowerChar. destruct (JS.isWhiteSpace c).
    + destruct inRun; [apply IH|]. simpl. f_equal. apply (IH true EmptyString).
    + rewrite <- IH. f_equal. now rewrite mapString_app.
Qed.

(** Tokenizing commutes with lower-casing. *)
Lemma tokenize_lower (q : string) :
  tokenize (JS.toLowerCase q) = map JS.toLowerCase (tokenize q).
Proof.
  unfold tokenize, JS.trim, JS.splitWhitespace, JS.filterBoolean.
  rewrite trimStart_lower, trimEnd_lower.
  rewrite (splitAux_lower _ false EmptyString).
  generalize (JS.splitAux false EmptyString (JS.trimEnd (JS.trimStart q))).
  intros l. induction l as [|x l IH]; simpl; [reflexivity|].
  unfold JS.toLowerCase at 1. rewrite isEmpty_mapString.
  destruct (JS.isEmpty x); simpl; now rewrite IH.
Qed.

Lemma occursb_lower (term text : string) :
  Spec.occursb (JS.toLowerCase term) text = Spec.occursb term text.
Proof. unfold Spec.occursb. now rewrite toLowerCase_idem. Qed.

Lemma isStatusTerm_lower (term : string) :
  isStatusTerm (JS.toLowerCase term) = isStatusTerm term.
Proof.
  unfold isStatusTerm, JS.matchesAnyInsensitive. now rewrite toLowerCase_idem.
Qed.

Lemma isDocumentTypeTerm_lower (term : string) :
  isDocumentTypeTerm (JS.toLowerCase term) = isDocumentTypeTerm term.
Proof.
  unfold isDocumentTypeTerm, JS.matchesAnyInsensitive.
  now rewrite toLowerCase_idem.
Qed.

Lemma inferStatus_lower (term : string) :
  inferStatus (JS.toLowerCase term) = inferStatus term.
Proof. unfold inferStatus. now rewrite toUpperCase_toLowerCase. Qed.

Lemma inferDocumentType_lower (term : string) :
  inferDocumentType (JS.toLowerCase term) = inferDocumentType term.
Proof. unfold inferDocumentType. now rewrite toUpperCase_toLowerCase. Qed.

Lemma sameMatches_lower (terms : list string) :
  Notion.sameMatches (map JS.toLowerCase terms) terms.
Proof.
  assert (Htext : forall texts,
             Spec.anyTermInAnyText (map JS.toLowerCase terms) texts
             = Spec.anyTermInAnyText terms texts).
  { intros texts. unfold Spec.anyTermInAnyText. rewrite existsb_map_compose.
    apply existsb_ext_eq. intros t. apply existsb_ext_eq. intros x.
    apply occursb_lower. }
  split; [|split].
  - intros p. apply Htext.
  - intros c. unfold Spec.claimMatches, Spec.claimTextMatches.
    rewrite Htext. f_equal.
    unfold Spec.inferredHolds. rewrite existsb_map_compose.
    apply existsb_ext_eq. intros t.
    now rewrite isStatusTerm_lower, inferStatus_lower.
  - intros d. unfold Spec.documentMatches, Spec.documentTextMatches.
    rewrite Htext. f_equal.
    unfold Spec.inferredHolds. rewrite existsb_map_compose.
    apply existsb_ext_eq. intros t.
    now rewrite isDocumentTypeTerm_lower, inferDocumentType_lower.
Qed.

Lemma sameMatches_sym (a b : list string) :
  Notion.sameMatches a b -> Notion.sameMatches b a.
Proof. intros (H1 & H2 & H3). repeat split; intros; symmetry; auto. Qed.

Lemma sameMatches_trans (a b c : list string) :
  Notion.sameMatches a b -> Notion.sameMatches b c -> Notion.sameMatches a c.
Proof.
  intros (H1 & H2 & H3) (K1 & K2 & K3).
  repeat split; intros; etransitivity; eauto.
Qed.

Lemma existsb_mono {A : Type} (f : A -> bool) (l l' : list A) :
  incl l l' -> existsb f l = true -> existsb f l' = true.
Proof.
  intros Hincl H. apply existsb_exists in H as (x & Hx & Hf).
  apply existsb_exists. exists x. split; [now apply Hincl | exact Hf].
Qed.

Lemma existsb_same_members {A : Type} (f : A -> bool) (l l' : list A) :
  incl l l' -> incl l' l -> existsb f l = existsb f l'.
Proof.
  intros H H'. destruct (existsb f l) eqn:E.
  - symmetry. now apply (existsb_mono f l l').
  - destruct (existsb f l') eqn:E'; [|reflexivity].
    apply (existsb_mono f l' l H') in E'. congruence.
Qed.

Lemma sameMatches_members (terms terms' : list string) :
  incl terms terms' -> incl terms' terms -> Notion.sameMatches terms terms'.
Proof.
  intros H H'. split; [|split].
  - intros p. now apply existsb_same_members.
  - intros c. unfold Spec.claimMatches, Spec.claimTextMatches,
      Spec.anyTermInAnyText, Spec.inferredHolds.
    f_equal; now apply existsb_same_members.
  - intros d. unfold Spec.documentMatches, Spec.documentTextMatches,
      Spec.anyTermInAnyText, Spec.inferredHolds.
    f_equal; now apply existsb_same_members.
Qed.

Section Text.
Variable formatBytes : Z -> string.

Lemma fetched_sameMatches (db : Store) (u : string) (terms terms' : list string)
  (skip take : Z) (k : SearchResultType.t) :
  Notion.sameMatches terms terms' ->
  Spec.fetched formatBytes db u terms skip take k
  = Spec.fetched formatBytes db u terms' skip take k
  /\ Spec.matchCount db u terms k = Spec.matchCount db u terms' k.
Proof.
  intros (Hp & Hc & Hd).
  assert (Hps : Spec.policyHits db u terms = Spec.policyHits db u terms')
    by (apply filter_ext_eq; intros p; now rewrite Hp).
  assert (Hcs : Spec.claimHits db u terms = Spec.claimHits db u terms')
    by (apply filter_ext_eq; intros c; now rewrite Hc).
  assert (Hds : Spec.documentHits db u terms = Spec.documentHits db u terms')
    by (apply filter_ext_eq; intros d; now rewrite Hd).
  destruct k; simpl; rewrite ?Hps, ?Hcs, ?Hds; split; reflexivity.
Qed.

(** The response depends on the free text only through the records its
    terms select. *)
Lemma globalSearch_sameMatches (db : Store) (o : SearchOptions) (q' : string) :
  (tokenize (query o) = [] <-> tokenize q' = []) ->
  Notion.sameMatches (tokenize (query o)) (tokenize q') ->
  fst (globalSearch formatBytes db (Notion.withQuery o q'))
  = fst (globalSearch formatBytes db o).
Proof.
  intros Hnil Hsame.
  assert (Hcases : tokenize (query o) = [] \/ tokenize (query o) <> [])
    by (destruct (tokenize (query o)); [left|right]; congruence).
  destruct Hcases as [Eo|Hterms].
  - assert (E' : tokenize q' = []) by now apply Hnil.
    unfold globalSearch. cbn [Notion.withQuery query]. now rewrite Eo, E'.
  - assert (Hterms' : tokenize (query (Notion.withQuery o q')) <> []).
    { cbn [Notion.withQuery query]. intros E. now apply Hnil in E. }
    destruct (Z.lt_ge_cases
                (if (List.length (withDefault (types o) defaultTypes) =? 1)%nat
                 then (withDefault (page o) 1 - 1) * withDefault (limit o) 20
                 else 0) 0) as [Hneg|Hok].
    + rewrite (globalSearch_rejected formatBytes db o Hterms Hneg).
      now rewrite (globalSearch_rejected formatBytes db _ Hterms' Hneg).
    + rewrite (globalSearch_run formatBytes db o Hterms Hok).
      rewrite (globalSearch_run formatBytes db _ Hterms' Hok).
      cbn [Notion.withQuery query userId types limit page fst].
      apply sameMatches_sym in Hsame.
      assert (Hpool : forall skip take,
                map (Spec.fetched formatBytes db (userId o) (tokenize q')
                       skip take)
                    (Spec.requestedKinds (withDefault (types o) defaultTypes))
                = map (Spec.fetched formatBytes db (userId o)
                         (tokenize (query o)) skip take)
                      (Spec.requestedKinds (withDefault (types o) defaultTypes))).
      { intros skip take. apply map_ext. intros k.
        now apply fetched_sameMatches. }
      assert (Htotal :
                Spec.totalMatchCount db (userId o) (tokenize q')
                  (withDefault (types o) defaultTypes)
                = Spec.totalMatchCount db (userId o) (tokenize (query o))
                    (withDefault (types o) defaultTypes)).
      { unfold Spec.totalMatchCount. f_equal. apply map_ext. intros k.
        now apply (fetched_sameMatches db (userId o) _ _ 0 0 k). }
      rewrite Hpool, Htotal. reflexivity.
Qed.

End Text.

(** X4. Letter case of the free text is immaterial: two requests whose free
    texts differ only in the case of letters receive the same response
    (results and total, or the same failure). *)
Theorem search_ignores_letter_case (formatBytes : Z -> string) (db : Store)
  (o : SearchOptions) (q' : string) :
  JS.toLowerCase q' = JS.toLowerCase (query o) ->
  fst (globalSearch formatBytes db (Notion.withQuery o q'))
  = fst (globalSearch formatBytes db o).
Proof.
  intros Hcase.
  assert (Hlower : map JS.toLowerCase (tokenize q')
                   = map JS.toLowerCase (tokenize (query o)))
    by now rewrite <- !tokenize_lower, Hcase.
  apply globalSearch_sameMatches.
  - split; intros E.
    + rewrite E in Hlower. now destruct (tokenize q').
    + rewrite E in Hlower. now destruct (tokenize (query o)).
  - apply sameMatches_trans with (map JS.toLowerCase (tokenize (query o))).
    + apply sameMatches_sym, sameMatches_lower.
    + rewrite <- Hlower. apply sameMatches_lower.
Qed.

Lemma search_ignores_letter_case_witness :
  fst (globalSearch Fixture.formatBytes Fixture.db
         (Notion.withQuery (Fixture.search "water damage" None None None)
            "Water DAMAGE"))
  = fst (globalSearch Fixture.formatBytes Fixture.db
           (Fixture.search "water damage" None None None)).
Proof.
  apply (search_ignores_letter_case Fixture.formatBytes Fixture.db
           (Fixture.search "water damage" None None None) "Water DAMAGE").
  reflexivity.
Defined.

(** X5. The order of the terms and their repetition are immaterial: two
    requests whose free texts have the same set of terms receive the same
    response. *)
Theorem search_ignores_term_order (formatBytes : Z -> string) (db : Store)
  (o : SearchOptions) (q' : string) :
  (forall term, In term (tokenize q') <-> In term (tokenize (query o))) ->
  fst (globalSearch formatBytes db (Notion.withQuery o q'))
  = fst (globalSearch formatBytes db o).
Proof.
  intros Hset. apply globalSearch_sameMatches.
  - split; intros E.
    + destruct (tokenize q') as [|t r]; [reflexivity|].
      exfalso. rewrite E in Hset. apply (Hset t). now left.
    + destruct (tokenize (query o)) as [|t r]; [reflexivity|].
      exfalso. rewrite E in Hset. apply (Hset t). now left.
  - apply sameMatches_members; intros t Ht; now apply Hset.
Qed.

Lemma search_ignores_term_order_witness :
  fst (globalSearch Fixture.formatBytes Fixture.db
         (Notion.withQuery (Fixture.search "water roof" None None None)
            "roof water  roof"))
  = fst (globalSearch Fixture.formatBytes Fixture.db
           (Fixture.search "water roof" None None None)).
Proof.
  apply (search_ignores_term_order Fixture.formatBytes Fixture.db
           (Fixture.search "water roof" None None None) "roof water  roof").
  intros term. vm_compute. tauto.
Defined.

Lemma sumZ_map_le {A : Type} (f g : A -> Z) (l : list A) :
  (forall a, f a <= g a) -> Spec.sumZ (map f l) <= Spec.sumZ (map g l).
Proof.
  intros H. induction l as [|a l IH]; simpl; [lia|].
  specialize (H a). lia.
Qed.

Lemma totalMatchCount_nonneg (db : Store) (u : string) (terms : list string)
  (ts : list SearchResultType.t) : 0 <= Spec.totalMatchCount db u terms ts.
Proof.
  unfold Spec.totalMatchCount.
  induction (Spec.requestedKinds ts) as [|k ks IH]; simpl; [lia|].
  pose proof (matchCount_nonneg db u terms k). lia.
Qed.

Lemma returned_total (formatBytes : Z -> string) (db : Store)
  (o : SearchOptions) (resp : SearchResponse) :
  fst (globalSearch formatBytes db o) = Some resp ->
  (tokenize (query o) = [] /\ total resp = 0)
  \/ (tokenize (query o) <> []
      /\ total resp
         = Spec.totalMatchCount db (userId o) (tokenize (query o))
             (withDefault (types o) defaultTypes)).
Proof.
  intros Hresp.
  assert (Hcases : tokenize (query o) = [] \/ tokenize (query o) <> [])
    by (destruct (tokenize (query o)); [left|right]; congruence).
  destruct Hcases as [E|Hterms].
  - left. split; [exact E|]. unfold globalSearch in Hresp. rewrite E in Hresp.
    simpl in Hresp. now injection Hresp as <-.
  - right. split; [exact Hterms|].
    pose proof (globalSearch_accepted formatBytes db o resp Hterms Hresp)
      as Hok.
    rewrite (globalSearch_run formatBytes db o Hterms Hok) in Hresp.
    simpl in Hresp. now injection Hresp as <-.
Qed.

(** X6. Terms are alternatives: when the terms of one free text are among the
    terms of another, every record the first selects is selected by the
    second, kind by kind, and the total returned for the second is at
    least the total returned for the first. *)
Theorem more_terms_never_lose_matches (formatBytes : Z -> string)
  (db : Store) (o : SearchOptions) (q' : string) :
  incl (tokenize (query o)) (tokenize q') ->
  incl (Spec.policyHits db (userId o) (tokenize (query o)))
       (Spec.policyHits db (userId o) (tokenize q'))
  /\ incl (Spec.claimHits db (userId o) (tokenize (query o)))
          (Spec.claimHits db (userId o) (tokenize q'))
  /\ incl (Spec.documentHits db (userId o) (tokenize (query o)))
          (Spec.documentHits db (userId o) (tokenize q'))
  /\ forall resp resp',
       fst (globalSearch formatBytes db o) = Some resp ->
       fst (globalSearch formatBytes db (Notion.withQuery o q')) = Some resp' ->
       total resp <= total resp'.
Proof.
  intros Hincl.
  assert (Htext : forall texts,
             Spec.anyTermInAnyText (tokenize (query o)) texts = true ->
             Spec.anyTermInAnyText (tokenize q') texts = true)
    by (intros texts; now apply existsb_mono).
  assert (Hinf : forall isKeyword infer value,
             Spec.inferredHolds isKeyword infer (tokenize (query o)) value
             = true ->
             Spec.inferredHolds isKeyword infer (tokenize q') value = true)
    by (intros isKeyword infer value; now apply existsb_mono).
  assert (Hp : forall p,
             (String.eqb (policy_userId p) (userId o)
              && Spec.policyMatches (tokenize (query o)) p)%bool = true ->
             (String.eqb (policy_userId p) (userId o)
              && Spec.policyMatches (tokenize q') p)%bool = true).
  { intros p H. apply andb_prop in H as [-> H]. simpl. now apply Htext. }
  assert (Hc : forall c,
             (String.eqb (claim_userId c) (userId o)
              && Spec.claimMatches (tokenize (query o)) c)%bool = true ->
             (String.eqb (claim_userId c) (userId o)
              && Spec.claimMatches (tokenize q') c)%bool = true).
  { intros c H. apply andb_prop in H as [-> H]. simpl.
    unfold Spec.claimMatches, Spec.claimTextMatches in *.
    apply orb_true_iff in H as [H|H]; apply orb_true_iff;
      [left; now apply Htext | right; now apply Hinf]. }
  assert (Hd : forall d,
             (String.eqb (document_userId d) (userId o)
              && Spec.documentMatches (tokenize (query o)) d)%bool = true ->
             (String.eqb (document_userId d) (userId o)
              && Spec.documentMatches (tokenize q') d)%bool = true).
  { intros d H. apply andb_prop in H as [-> H]. simpl.
    unfold Spec.documentMatches, Spec.documentTextMatches in *.
    apply orb_true_iff in H as [H|H]; apply orb_true_iff;
      [left; now apply Htext | right; now apply Hinf]. }
  assert (Hin : forall (A : Type) (f g : A -> bool) (l : list A),
             (forall a, f a = true -> g a = true) ->
             incl (filter f l) (filter g l)).
  { intros A f g l H a Ha. apply filter_In in Ha as [Ha Hf].
    apply filter_In. split; [exact Ha | now apply H]. }
  split; [now apply Hin|]. split; [now apply Hin|]. split; [now apply Hin|].
  intros resp resp' Hresp Hresp'.
  apply returned_total in Hresp, Hresp'.
  cbn [Notion.withQuery query userId types] in Hresp'.
  assert (Hle : Spec.totalMatchCount db (userId o) (tokenize (query o))
                  (withDefault (types o) defaultTypes)
                <= Spec.totalMatchCount db (userId o) (tokenize q')
                     (withDefault (types o) defaultTypes)).
  { unfold Spec.totalMatchCount. apply sumZ_map_le. intros k.
    destruct k; simpl; apply inj_le; now apply filter_length_incl. }
  pose proof (totalMatchCount_nonneg db (userId o) (tokenize q')
                (withDefault (types o) defaultTypes)) as Hnn.
  destruct Hresp as [[E ->]|[_ ->]], Hresp' as [[E' ->]|[_ ->]]; try lia.
  rewrite E' in Hincl.
  destruct (tokenize (query o)) as [|t r]; [|exfalso; apply (Hincl t); now left].
  unfold Spec.totalMatchCount in *.
  assert (Hz : forall k, Spec.matchCount db (userId o) [] k = 0).
  { intros k. destruct k; simpl;
      [unfold Spec.policyHits | unfold Spec.claimHits
       | unfold Spec.documentHits];
      rewrite (filter_ext_eq _ (fun _ => false)); 
      try (intros a; now rewrite andb_false_r);
      now induction (_ db). }
  clear -Hz. induction (Spec.requestedKinds _) as [|k ks IH]; simpl; [lia|].
  rewrite Hz. lia.
Qed.

Lemma more_terms_never_lose_matches_witness :
  match fst (globalSearch Fixture.formatBytes Fixture.db
               (Fixture.search "water" None None None)),
        fst (globalSearch Fixture.formatBytes Fixture.db
               (Notion.withQuery (Fixture.search "water" None None None)
                  "roof water")) with
  | Some resp, Some resp' => total resp <= total resp'
  | _, _ => False
  end.
Proof.
  destruct (more_terms_never_lose_matches Fixture.formatBytes Fixture.db
              (Fixture.search "water" None None None) "roof water")
    as (_ & _ & _ & H).
  - intros t Ht. vm_compute in Ht. vm_compute. tauto.
  - destruct (fst (globalSearch Fixture.formatBytes Fixture.db
                     (Fixture.search "water" None None None)))
      as [resp|] eqn:E; [|vm_compute in E; discriminate].
    destruct (fst (globalSearch Fixture.formatBytes Fixture.db
                     (Notion.withQuery (Fixture.search "water" None None None)
                        "roof water")))
      as [resp'|] eqn:E'; [|vm_compute in E'; discriminate].
    now apply H.
Defined.

(* ------------------------------------------------------------------ *)
(** ** What every response of the search satisfies *)
(* ------------------------------------------------------------------ *)


Lemma slice_descending {A : Type} (key : A -> Z) (start stop : Z)
  (l : list A) :
  Spec.descending key l -> Spec.descending key (JS.slice start stop l).
Proof.
  intros H. unfold JS.slice. now apply descending_firstn, descending_skipn.
Qed.

Lemma slice_length_le {A : Type} (start stop : Z) (l : list A) :
  (List.length (JS.slice start stop l) <= List.length l)%nat.
Proof.
  unfold JS.slice. rewrite length_firstn, length_skipn. lia.
Qed.

Lemma slice_window_length {A : Type} (skip take : Z) (l : list A) :
  0 <= take ->
  (List.length (JS.slice skip (skip + take) l) <= Z.to_nat take)%nat.
Proof.
  intros Htake. unfold JS.slice. rewrite length_firstn.
  apply Nat.le_trans with (Z.to_nat
    ((if skip + take <? 0
      then Z.max (Z.of_nat (List.length l) + (skip + take)) 0
      else Z.min (skip + take) (Z.of_nat (List.length l)))
     - (if skip <? 0
        then Z.max (Z.of_nat (List.length l) + skip) 0
        else Z.min skip (Z.of_nat (List.length l))))); [apply Nat.le_min_l|].
  destruct (skip + take <? 0) eqn:E1, (skip <? 0) eqn:E2;
    rewrite ?Z.ltb_lt, ?Z.ltb_ge in *; lia.
Qed.

Lemma windowRows_length_le {R : Type} (skip take : Z) (l : list R) :
  (List.length (windowRows skip take l) <= List.length l)%nat.
Proof.
  unfold windowRows. destruct (0 <=? take).
  - rewrite length_firstn, length_skipn. lia.
  - rewrite length_rev, length_firstn, length_skipn, length_rev. lia.
Qed.

Lemma windowRows_length_take {R : Type} (skip take : Z) (l : list R) :
  0 <= take -> (List.length (windowRows skip take l) <= Z.to_nat take)%nat.
Proof.
  intros H. rewrite (windowRows_pageOf _ _ _ H). apply pageOf_length.
Qed.

Lemma sortDesc_length {A : Type} (key : A -> Z) (l : list A) :
  List.length (sortDesc key l) = List.length l.
Proof. apply Permutation_length, sortDesc_perm. Qed.

Section Responses.
Variable formatBytes : Z -> string.

Lemma fetched_length_count (db : Store) (u : string) (terms : list string)
  (skip take : Z) (k : SearchResultType.t) :
  Z.of_nat (List.length (Spec.fetched formatBytes db u terms skip take k))
  <= Spec.matchCount db u terms k.
Proof.
  destruct k; simpl; rewrite length_map; apply inj_le;
    (eapply Nat.le_trans; [apply windowRows_length_le|]);
    now rewrite sortDesc_length.
Qed.

Lemma fetched_length_take (db : Store) (u : string) (terms : list string)
  (skip take : Z) (k : SearchResultType.t) :
  0 <= take ->
  (List.length (Spec.fetched formatBytes db u terms skip take k)
   <= Z.to_nat take)%nat.
Proof.
  intros H. destruct k; simpl; rewrite length_map;
    now apply windowRows_length_take.
Qed.

Lemma pool_length_total (db : Store) (u : string) (terms : list string)
  (skip take : Z) (ks : list SearchResultType.t) :
  Z.of_nat (List.length
              (List.concat (map (Spec.fetched formatBytes db u terms skip take)
                                ks)))
  <= Spec.sumZ (map (Spec.matchCount db u terms) ks).
Proof.
  induction ks as [|k ks IH]; simpl; [lia|].
  rewrite length_app, Nat2Z.inj_add.
  pose proof (fetched_length_count db u terms skip take k). lia.
Qed.

Lemma pool_length_kinds (db : Store) (u : string) (terms : list string)
  (skip take : Z) (ks : list SearchResultType.t) :
  0 <= take ->
  (List.length
     (List.concat (map (Spec.fetched formatBytes db u terms skip take) ks))
   <= List.length ks * Z.to_nat take)%nat.
Proof.
  intros H. induction ks as [|k ks IH]; simpl; [lia|].
  rewrite length_app.
  pose proof (fetched_length_take db u terms skip take k H). lia.
Qed.

(** The shape of every response on a text with at least one term. *)
Lemma returned_results (db : Store) (o : SearchOptions) (resp : SearchResponse) :
  let ts := withDefault (types o) defaultTypes in
  let lim := withDefault (limit o) 20 in
  let skip := (withDefault (page o) 1 - 1) * lim in
  let fetchSkip := if (List.length ts =? 1)%nat then skip else 0 in
  let sorted :=
    sortDesc result_date
      (List.concat
         (map (Spec.fetched formatBytes db (userId o) (tokenize (query o))
                 fetchSkip lim)
              (Spec.requestedKinds ts))) in
  tokenize (query o) <> [] ->
  fst (globalSearch formatBytes db o) = Some resp ->
  results resp = (if (1 <? List.length ts)%nat
                  then JS.slice skip (skip + lim) sorted else sorted)
  /\ total resp
     = Spec.totalMatchCount db (userId o) (tokenize (query o)) ts.
Proof.
  intros ts lim skip fetchSkip sorted Hterms Hresp.
  pose proof (globalSearch_accepted formatBytes db o resp Hterms Hresp) as Hok.
  rewrite (globalSearch_run formatBytes db o Hterms Hok) in Hresp.
  simpl in Hresp. injection Hresp as <-. split; reflexivity.
Qed.

End Responses.

(** X7. Every response of the search lists its results in descending order of
    last-modified date, never lists more results than the total it
    reports, and lists at most [limit] results when [limit >= 0]. *)
Theorem response_is_ordered_and_bounded (formatBytes : Z -> string)
  (db : Store) (o : SearchOptions) (resp : SearchResponse) :
  fst (globalSearch formatBytes db o) = Some resp ->
  Spec.descending result_date (results resp)
  /\ Z.of_nat (List.length (results resp)) <= total resp
  /\ (0 <= withDefault (limit o) 20 ->
      Z.of_nat (List.length (results resp)) <= withDefault (limit o) 20).
Proof.
  intros Hresp.
  assert (Hcases : tokenize (query o) = [] \/ tokenize (query o) <> [])
    by (destruct (tokenize (query o)); [left|right]; congruence).
  destruct Hcases as [E|Hterms].
  - unfold globalSearch in Hresp. rewrite E in Hresp. simpl in Hresp.
    injection Hresp as <-. simpl. repeat split; try lia. constructor.
  - destruct (returned_results formatBytes db o resp Hterms Hresp)
      as [Hresults Htotal].
    rewrite Hresults, Htotal. clear Hresults Htotal Hresp.
    set (ts := withDefault (types o) defaultTypes).
    set (lim := withDefault (limit o) 20).
    set (skip := (withDefault (page o) 1 - 1) * lim).
    set (fetchSkip := if (List.length ts =? 1)%nat then skip else 0).
    set (pool := List.concat
                   (map (Spec.fetched formatBytes db (userId o)
                           (tokenize (query o)) fetchSkip lim)
                        (Spec.requestedKinds ts))).
    assert (Hpool : Z.of_nat (List.length (sortDesc result_date pool))
                    <= Spec.totalMatchCount db (userId o)
                         (tokenize (query o)) ts).
    { rewrite sortDesc_length. apply pool_length_total. }
    split; [|split].
    + destruct (1 <? List.length ts)%nat;
        [apply slice_descending|]; apply sortDesc_descending.
    + destruct (1 <? List.length ts)%nat; [|exact Hpool].
      pose proof (slice_length_le skip (skip + lim)
                    (sortDesc result_date pool)). lia.
    + intros Hlim. fold lim in Hlim.
      destruct (1 <? List.length ts)%nat eqn:Hmulti.
      * pose proof (slice_window_length skip lim (sortDesc result_date pool)
                      Hlim). lia.
      * rewrite sortDesc_length.
        pose proof (pool_length_kinds formatBytes db (userId o)
                      (tokenize (query o)) fetchSkip lim
                      (Spec.requestedKinds ts) Hlim) as Hk.
        pose proof (requestedKinds_length ts) as Hr.
        apply Nat.ltb_ge in Hmulti. fold pool in Hk. nia.
Qed.

Lemma response_is_ordered_and_bounded_witness :
  exists resp,
    fst (globalSearch Fixture.formatBytes Fixture.db
           (Fixture.search "damage" None (Some 3) None)) = Some resp
    /\ Spec.descending result_date (results resp)
    /\ Z.of_nat (List.length (results resp)) <= total resp
    /\ Z.of_nat (List.length (results resp)) <= 3.
Proof.
  eexists. split; [reflexivity|].
  destruct (response_is_ordered_and_bounded Fixture.formatBytes Fixture.db
              (Fixture.search "damage" None (Some 3) None) _ eq_refl)
    as (Hd & Ht & Hl).
  split; [exact Hd|]. split; [exact Ht|]. apply Hl. simpl. lia.
Defined.



(* ------------------------------------------------------------------ *)
(** ** The merge window of a multi-kind search *)
(* ------------------------------------------------------------------ *)

Section MergeWindow.
Context {A : Type} (key : A -> Z).












End MergeWindow.










(* ------------------------------------------------------------------ *)
(** ** Keyword inference *)
(* ------------------------------------------------------------------ *)








(* ------------------------------------------------------------------ *)
(** ** The claim and document filters *)
(* ------------------------------------------------------------------ *)

Lemma isEmpty_eq (s : string) : JS.isEmpty s = true <-> s = EmptyString.
Proof. destruct s; simpl; split; congruence. Qed.

Lemma idEntry_eval (row : string -> scalar) (column : string)
  (value wanted : option string) :
  row column = optStr value ->
  forallb (eval row) (idEntry column wanted) = true
  <-> Notion.idFilter wanted value.
Proof.
  intros Hrow. unfold idEntry, Notion.idFilter.
  destruct wanted as [s|]; [|simpl; tauto].
  destruct (JS.isEmpty s); [simpl; tauto|].
  cbn [forallb eval]. rewrite Hrow, andb_true_r.
  destruct value as [v|]; simpl.
  - rewrite String.eqb_eq. split; congruence.
  - split; discriminate.
Qed.

Lemma rangeEntry_eval_optional (row : string -> scalar) (column : string)
  (value : option Z) (lo hi : option Z) :
  row column = optInt value ->
  forallb (eval row) (rangeEntry column lo hi) = true
  <-> Notion.withinOptional lo hi value.
Proof.
  intros Hrow. destruct value as [z|].
  - rewrite (rangeEntry_eval row column z lo hi Hrow).
    unfold Notion.withinOptional.
    destruct lo, hi; simpl; tauto.
  - unfold Notion.withinOptional, rangeEntry.
    destruct lo, hi; simpl; rewrite ?Hrow; simpl; split;
      try tauto; try discriminate.
Qed.

Lemma claimFilterWhere_eval (u : string) (f : ClaimFilters) (c : Claim) :
  eval (claimColumns c) (claimFilterWhere u f) = true
  <-> claim_userId c = u /\ Notion.claimSatisfies f c.
Proof.
  unfold claimFilterWhere, Notion.claimSatisfies. cbn [eval].
  rewrite !forallb_app, !andb_true_iff.
  rewrite (listEntry_eval _ _ (ClaimStatus.name (claim_status c)))
    by reflexivity.
  rewrite (idEntry_eval _ _ (Some (claim_policyId c))) by reflexivity.
  rewrite (rangeEntry_eval _ _ (claim_incidentDate c)) by reflexivity.
  rewrite (rangeEntry_eval_optional _ _ (claim_damageAmount c)) by reflexivity.
  assert (Hu : forallb (eval (claimColumns c))
                 [Field "userId" (Equals (SStr u))] = true
               <-> claim_userId c = u).
  { simpl. rewrite andb_true_r. apply String.eqb_eq. }
  rewrite Hu. tauto.
Qed.

Lemma documentFilterWhere_eval (u : string) (f : DocumentFilters)
  (d : Document) :
  eval (documentColumns d) (documentFilterWhere u f) = true
  <-> document_userId d = u /\ Notion.documentSatisfies f d.
Proof.
  unfold documentFilterWhere, Notion.documentSatisfies. cbn [eval].
  rewrite !forallb_app, !andb_true_iff.
  rewrite (listEntry_eval _ _ (DocumentType.name (document_documentType d)))
    by reflexivity.
  rewrite (idEntry_eval _ "policyId" (document_policyId d)) by reflexivity.
  rewrite (idEntry_eval _ "claimId" (document_claimId d)) by reflexivity.
  rewrite (boolEntry_eval _ _ (document_isAnalyzed d)) by reflexivity.
  rewrite (rangeEntry_eval _ _ (document_uploadDate d)) by reflexivity.
  assert (Hu : forallb (eval (documentColumns d))
                 [Field "userId" (Equals (SStr u))] = true
               <-> document_userId d = u).
  { simpl. rewrite andb_true_r. apply String.eqb_eq. }
  rewrite Hu. tauto.
Qed.

(** X13. The query of [filterClaims] holds of a claim exactly when the claim
    belongs to the user and meets the constraints in force: status in the
    list (a list absent or empty constrains nothing), policy id equal to
    the given one (an id absent or empty constrains nothing), incident
    date within the inclusive bounds, damage amount within the inclusive
    bounds, a claim without damage amount being excluded as soon as one
    amount bound is given. Every claim returned is a claim of the store
    that satisfies this, and the total counts the claims that do. *)
Theorem filterClaims_applies_constraints (db : Store) (u : string)
  (f : ClaimFilters) (pg ps : option Z) :
  (forall c,
      eval (claimColumns c) (claimFilterWhere u f) = true
      <-> claim_userId c = u /\ Notion.claimSatisfies f c)
  /\ forall resp,
       fst (filterClaims db u f pg ps) = Some resp ->
       (forall row,
           In row (items resp) ->
           In (cwp_claim row) (claims db)
           /\ claim_userId (cwp_claim row) = u
           /\ Notion.claimSatisfies f (cwp_claim row))
       /\ totalMatches resp
          = Z.of_nat (List.length
                        (matching claimColumns (claimFilterWhere u f)
                                  (claims db))).
Proof.
  split; [apply claimFilterWhere_eval|].
  intros resp Hresp. unfold filterClaims, awaitAll2, mapPending in Hresp.
  cbn [bind ret fst pendingResult claimFindMany claimCount] in Hresp.
  destruct (findManyRows _ _ _ _ _ _) as [found|] eqn:Hfound;
    [|discriminate].
  simpl in Hresp. injection Hresp as <-. cbn [items totalMatches].
  split; [|reflexivity].
  intros row Hrow. apply in_map_iff in Hrow as (c & <- & Hc).
  apply (findManyRows_In _ _ _ _ _ _ _ c Hfound) in Hc.
  apply filter_In in Hc as [Hin Hc]. cbn [includePolicy cwp_claim].
  split; [exact Hin|]. now apply claimFilterWhere_eval.
Qed.

(** X14. The query of [filterDocuments] holds of a document exactly when the
    document belongs to the user and meets the constraints in force:
    document type in the list (a list absent or empty constrains nothing),
    policy id and claim id equal to the given ones (an id absent or empty
    constrains nothing, a given id excludes documents without that
    relation), the analyzed flag, upload date within the inclusive bounds.
    Every document returned is a document of the store that satisfies
    this, and the total counts the documents that do. *)
Theorem filterDocuments_applies_constraints (db : Store) (u : string)
  (f : DocumentFilters) (pg ps : option Z) :
  (forall d,
      eval (documentColumns d) (documentFilterWhere u f) = true
      <-> document_userId d = u /\ Notion.documentSatisfies f d)
  /\ forall resp,
       fst (filterDocuments db u f pg ps) = Some resp ->
       (forall row,
           In row (items resp) ->
           In (dwr_document row) (documents db)
           /\ document_userId (dwr_document row) = u
           /\ Notion.documentSatisfies f (dwr_document row))
       /\ totalMatches resp
          = Z.of_nat (List.length
                        (matching documentColumns (documentFilterWhere u f)
                                  (documents db))).
Proof.
  split; [apply documentFilterWhere_eval|].
  intros resp Hresp. unfold filterDocuments, awaitAll2, mapPending in Hresp.
  cbn [bind ret fst pendingResult documentFindMany documentCount] in Hresp.
  destruct (findManyRows _ _ _ _ _ _) as [found|] eqn:Hfound;
    [|discriminate].
  simpl in Hresp. injection Hresp as <-. cbn [items totalMatches].
  split; [|reflexivity].
  intros row Hrow. apply in_map_iff in Hrow as (d & <- & Hd).
  apply (findManyRows_In _ _ _ _ _ _ _ d Hfound) in Hd.
  apply filter_In in Hd as [Hin Hd]. cbn [includeRelations dwr_document].
  split; [exact Hin|]. now apply documentFilterWhere_eval.
Qed.

Lemma filterClaims_applies_constraints_witness :
  claim_userId Fixture.claim1 = "test-user"%string
  /\ Notion.claimSatisfies
       (mkClaimFilters None None None None (Some 1000) None) Fixture.claim1.
Proof.
  destruct (filterClaims_applies_constraints Fixture.db "test-user"
              (mkClaimFilters None None None None (Some 1000) None) None None)
    as [_ H].
  edestruct H as [Hrows _]; [reflexivity|].
  destruct (Hrows (includePolicy Fixture.db Fixture.claim1)) as (_ & Hu & Hs);
    [left; reflexivity|].
  split; [exact Hu | exact Hs].
Defined.

Lemma filterDocuments_applies_constraints_witness :
  document_userId Fixture.document1 = "test-user"%string
  /\ Notion.documentSatisfies
       (mkDocumentFilters None (Some "policy-1"%string) None None None None)
       Fixture.document1.
Proof.
  destruct (filterDocuments_applies_constraints Fixture.db "test-user"
              (mkDocumentFilters None (Some "policy-1"%string) None None None
                                 None) None None)
    as [_ H].
  edestruct H as [Hrows _]; [reflexivity|].
  destruct (Hrows (includeRelations Fixture.db Fixture.document1))
    as (_ & Hu & Hs); [left; reflexivity|].
  split; [exact Hu | exact Hs].
Defined.

(* ------------------------------------------------------------------ *)
(** ** Pages of the faceted filters *)
(* ------------------------------------------------------------------ *)







(* ------------------------------------------------------------------ *)
(** ** The session termination route *)
(* ------------------------------------------------------------------ *)

Lemma find_filter_none {A : Type} (p : A -> bool) (l : list A) :
  find p (filter (fun x => negb (p x)) l) = None.
Proof.
  induction l as [|x l IH]; [reflexivity|]. simpl.
  destruct (p x) eqn:E; simpl; [exact IH|]. now rewrite E.
Qed.

Lemma findSession_id (db : SessionRoute.AuthStore) (id : string)
  (s : SessionRoute.Session) :
  SessionRoute.findSession db id = Some s ->
  In s (SessionRoute.sessions db) /\ SessionRoute.session_id s = id.
Proof.
  unfold SessionRoute.findSession. intros H.
  apply find_some in H as [Hin Heq]. split; [exact Hin|].
  now apply String.eqb_eq.
Qed.

Lemma unique_session_by_id (l : list SessionRoute.Session)
  (s t : SessionRoute.Session) :
  NoDup (map SessionRoute.session_id l) ->
  In s l -> In t l ->
  SessionRoute.session_id s = SessionRoute.session_id t -> s = t.
Proof.
  induction l as [|x l IH]; simpl; [intros _ []|].
  intros Hnd Hs Ht Heq. inversion Hnd as [|? ? Hx Hnd']; subst.
  destruct Hs as [->|Hs], Ht as [->|Ht]; try reflexivity.
  - exfalso. apply Hx. rewrite Heq. now apply in_map.
  - exfalso. apply Hx. rewrite <- Heq. now apply in_map.
  - now apply IH.
Qed.

(** What a [200] answer of [POST] requires and gives. *)
Lemma POST_success (db : SessionRoute.AuthStore) (req : SessionRoute.Request) :
  SessionRoute.status (fst (SessionRoute.POST db req)) = 200 ->
  exists user sid s,
    SessionRoute.caller db req = Some user
    /\ SessionRoute.target req = Some sid
    /\ SessionRoute.findSession db sid = Some s
    /\ SessionRoute.session_userId s = SessionRoute.user_id user
    /\ SessionRoute.POST db req
       = (SessionRoute.mkResponse 200
            (SessionRoute.SuccessBody "Session terminated successfully"),
          SessionRoute.mkAuthStore (SessionRoute.users db)
            (filter (fun x => negb (String.eqb (SessionRoute.session_id x) sid))
                    (SessionRoute.sessions db))).
Proof.
  unfold SessionRoute.POST, SessionRoute.caller, SessionRoute.target,
    SessionRoute.deleteSession.
  destruct (SessionRoute.sessionEmail req) as [[email|]|];
    try (simpl; discriminate).
  destruct (JS.isEmpty email); [simpl; discriminate|].
  destruct (SessionRoute.requestBody req) as [parsed|];
    [|simpl; discriminate].
  destruct (SessionRoute.safeParse parsed) as [sid|]; [|simpl; discriminate].
  destruct (SessionRoute.findUserByEmail db email) as [user|];
    [|simpl; discriminate].
  destruct (SessionRoute.findSession db sid) as [s|] eqn:Es;
    [|simpl; discriminate].
  destruct (String.eqb (SessionRoute.session_userId s)
                       (SessionRoute.user_id user)) eqn:Eo;
    [|simpl; discriminate].
  cbn [negb]. intros _. exists user, sid, s.
  split; [reflexivity|]. split; [reflexivity|]. split; [exact Es|].
  split; [now apply String.eqb_eq | reflexivity].
Qed.

(** X16. [POST] answers [200] exactly when the request is authenticated with
    the e-mail of a stored user, its body is an object whose [sessionId]
    is a string, a session with that id exists, and that session belongs
    to that user. *)
Theorem terminate_succeeds_iff (db : SessionRoute.AuthStore)
  (req : SessionRoute.Request) :
  SessionRoute.status (fst (SessionRoute.POST db req)) = 200
  <-> exists user sid s,
      SessionRoute.caller db req = Some user
      /\ SessionRoute.target req = Some sid
      /\ SessionRoute.findSession db sid = Some s
      /\ SessionRoute.session_userId s = SessionRoute.user_id user.
Proof.
  split.
  - intros H. destruct (POST_success db req H)
      as (user & sid & s & Hc & Ht & Hs & Ho & _).
    now exists user, sid, s.
  - intros (user & sid & s & Hc & Ht & Hs & Ho).
    unfold SessionRoute.POST, SessionRoute.caller, SessionRoute.target,
      SessionRoute.deleteSession in *.
    destruct (SessionRoute.sessionEmail req) as [[email|]|];
      try discriminate.
    destruct (JS.isEmpty email); [discriminate|].
    destruct (SessionRoute.requestBody req) as [parsed|]; [|discriminate].
    rewrite Ht, Hc, Hs, Ho, String.eqb_refl. reflexivity.
Qed.

(** X17. Every answer of [POST] other than [200] leaves the store as it was:
    no session is deleted on a [400], [401], [403], [404] or [500]. *)
Theorem terminate_failure_keeps_store (db : SessionRoute.AuthStore)
  (req : SessionRoute.Request) :
  SessionRoute.status (fst (SessionRoute.POST db req)) <> 200 ->
  snd (SessionRoute.POST db req) = db.
Proof.
  unfold SessionRoute.POST, SessionRoute.deleteSession.
  destruct (SessionRoute.sessionEmail req) as [[email|]|];
    try reflexivity.
  destruct (JS.isEmpty email); [reflexivity|].
  destruct (SessionRoute.requestBody req) as [parsed|]; [|reflexivity].
  destruct (SessionRoute.safeParse parsed) as [sid|]; [|reflexivity].
  destruct (SessionRoute.findUserByEmail db email) as [user|]; [|reflexivity].
  destruct (SessionRoute.findSession db sid) as [s|]; [|reflexivity].
  destruct (negb (String.eqb (SessionRoute.session_userId s)
                             (SessionRoute.user_id user))); [reflexivity|].
  simpl. intros H. now elim H.
Qed.

Lemma terminate_failure_keeps_store_witness :
  snd (SessionRoute.POST
         (SessionRoute.mkAuthStore
            [SessionRoute.mkUser "u1" "a@x.io"; SessionRoute.mkUser "u2" "b@x.io"]
            [SessionRoute.mkSession "s1" "t1" "u1" 10;
             SessionRoute.mkSession "s2" "t2" "u2" 20])
         (SessionRoute.mkRequest (Some (Some "a@x.io"%string))
            (Some (SessionRoute.JObject
                     [("sessionId"%string, SessionRoute.JString "s2")]))))
  = SessionRoute.mkAuthStore
      [SessionRoute.mkUser "u1" "a@x.io"; SessionRoute.mkUser "u2" "b@x.io"]
      [SessionRoute.mkSession "s1" "t1" "u1" 10;
       SessionRoute.mkSession "s2" "t2" "u2" 20].
Proof.
  apply terminate_failure_keeps_store. vm_compute. discriminate.
Defined.

(** X18. With session ids unique, a [200] answer of [POST] removes exactly one
    session: the one the request names, which belongs to the caller. The
    users, and every other session (so every session of another user),
    are kept, in their order. *)
Theorem terminate_removes_only_own_target (db : SessionRoute.AuthStore)
  (req : SessionRoute.Request) :
  SessionRoute.uniqueSessions db ->
  SessionRoute.status (fst (SessionRoute.POST db req)) = 200 ->
  exists user s,
    SessionRoute.caller db req = Some user
    /\ SessionRoute.target req = Some (SessionRoute.session_id s)
    /\ In s (SessionRoute.sessions db)
    /\ SessionRoute.session_userId s = SessionRoute.user_id user
    /\ SessionRoute.users (snd (SessionRoute.POST db req))
       = SessionRoute.users db
    /\ (forall x, In x (SessionRoute.sessions (snd (SessionRoute.POST db req)))
                  <-> In x (SessionRoute.sessions db) /\ x <> s)
    /\ S (List.length
            (SessionRoute.sessions (snd (SessionRoute.POST db req))))
       = List.length (SessionRoute.sessions db)
    /\ SessionRoute.uniqueSessions (snd (SessionRoute.POST db req)).
Proof.
  intros Hu H200.
  destruct (POST_success db req H200)
    as (user & sid & s & Hc & Ht & Hs & Ho & Hrun).
  destruct (findSession_id db sid s Hs) as [Hin Hid].
  exists user, s. rewrite Hrun. cbn [snd SessionRoute.users SessionRoute.sessions].
  unfold SessionRoute.uniqueSessions in *.
  cbn [SessionRoute.sessions].
  assert (Hrem : forall x, In x (SessionRoute.sessions db) ->
                           negb (String.eqb (SessionRoute.session_id x) sid)
                           = true <-> x <> s).
  { intros x Hx. rewrite negb_true_iff. split.
    - intros Hne ->. rewrite Hid, String.eqb_refl in Hne. discriminate.
    - intros Hne. apply String.eqb_neq. intros Heq. apply Hne.
      apply (unique_session_by_id (SessionRoute.sessions db)); try assumption.
      now rewrite Hid. }
  split; [exact Hc|]. split; [now rewrite Hid|]. split; [exact Hin|].
  split; [exact Ho|]. split; [reflexivity|]. split; [|split].
  - intros x. rewrite filter_In. split.
    + intros [Hx Hb]. split; [exact Hx|]. now apply (Hrem x Hx).
    + intros [Hx Hne]. split; [exact Hx|]. now apply (Hrem x Hx).
  - revert Hu Hin Hrem. generalize (SessionRoute.sessions db) as l.
    induction l as [|x l IH]; simpl; [intros _ []|].
    intros Hnd Hin' Hrem'. inversion Hnd as [|? ? Hx Hnd']; subst.
    destruct (negb (String.eqb (SessionRoute.session_id x)
                               (SessionRoute.session_id s))) eqn:Eb.
    + simpl. f_equal. apply IH; try assumption.
      * destruct Hin' as [->|Hin']; [|exact Hin'].
        rewrite String.eqb_refl in Eb. discriminate.
      * intros y Hy. apply Hrem'. now right.
    + f_equal. apply negb_false_iff, String.eqb_eq in Eb.
      assert (Hnone : forall y, In y l ->
                negb (String.eqb (SessionRoute.session_id y)
                                 (SessionRoute.session_id s)) = true).
      { intros y Hy. apply negb_true_iff, String.eqb_neq. intros Heq.
        apply Hx. rewrite Eb, <- Heq. now apply in_map. }
      clear - Hnone. induction l as [|y l IH]; [reflexivity|]. simpl.
      rewrite (Hnone y (or_introl eq_refl)). simpl. f_equal.
      apply IH. intros z Hz. apply Hnone. now right.
  - apply NoDup_map_filter. exact Hu.
Qed.

Lemma terminate_removes_only_own_target_witness :
  exists user s,
    SessionRoute.caller
      (SessionRoute.mkAuthStore
         [SessionRoute.mkUser "u1" "a@x.io"; SessionRoute.mkUser "u2" "b@x.io"]
         [SessionRoute.mkSession "s1" "t1" "u1" 10;
          SessionRoute.mkSession "s2" "t2" "u2" 20;
          SessionRoute.mkSession "s3" "t3" "u1" 30])
      (SessionRoute.mkRequest (Some (Some "a@x.io"%string))
         (Some (SessionRoute.JObject
                  [("sessionId"%string, SessionRoute.JString "s3")])))
    = Some user
    /\ SessionRoute.session_userId s = SessionRoute.user_id user.
Proof.
  destruct (terminate_removes_only_own_target
              (SessionRoute.mkAuthStore
                 [SessionRoute.mkUser "u1" "a@x.io";
                  SessionRoute.mkUser "u2" "b@x.io"]
                 [SessionRoute.mkSession "s1" "t1" "u1" 10;
                  SessionRoute.mkSession "s2" "t2" "u2" 20;
                  SessionRoute.mkSession "s3" "t3" "u1" 30])
              (SessionRoute.mkRequest (Some (Some "a@x.io"%string))
                 (Some (SessionRoute.JObject
                          [("sessionId"%string, SessionRoute.JString "s3")]))))
    as (user & s & Hc & _ & _ & Ho & _).
  - unfold SessionRoute.uniqueSessions. simpl.
    repeat constructor; simpl; intuition discriminate.
  - reflexivity.
  - exists user, s. split; [exact Hc | exact Ho].
Defined.

(** X19. Termination is not repeatable: once a request has been answered
    [200], the same request against the resulting store is answered
    [404] ("Session not found") and changes nothing. *)
Theorem terminate_again_is_not_found (db : SessionRoute.AuthStore)
  (req : SessionRoute.Request) :
  SessionRoute.status (fst (SessionRoute.POST db req)) = 200 ->
  SessionRoute.POST (snd (SessionRoute.POST db req)) req
  = (SessionRoute.mkResponse 404 (SessionRoute.ErrorBody "Session not found"),
     snd (SessionRoute.POST db req)).
Proof.
  intros H200.
  destruct (POST_success db req H200)
    as (user & sid & s & Hc & Ht & Hs & Ho & Hrun).
  rewrite Hrun. cbn [snd].
  unfold SessionRoute.POST, SessionRoute.caller, SessionRoute.target in *.
  destruct (SessionRoute.sessionEmail req) as [[email|]|]; try discriminate.
  destruct (JS.isEmpty email); [discriminate|].
  destruct (SessionRoute.requestBody req) as [parsed|]; [|discriminate].
  rewrite Ht.
  unfold SessionRoute.findUserByEmail in *. cbn [SessionRoute.users].
  rewrite Hc.
  unfold SessionRoute.findSession. cbn [SessionRoute.sessions].
  rewrite (find_filter_none
             (fun x => String.eqb (SessionRoute.session_id x) sid)).
  reflexivity.
Qed.

Lemma terminate_again_is_not_found_witness :
  SessionRoute.status
    (fst (SessionRoute.POST
            (snd (SessionRoute.POST
                    (SessionRoute.mkAuthStore
                       [SessionRoute.mkUser "u1" "a@x.io"]
                       [SessionRoute.mkSession "s1" "t1" "u1" 10])
                    (SessionRoute.mkRequest (Some (Some "a@x.io"%string))
                       (Some (SessionRoute.JObject
                                [("sessionId"%string,
                                  SessionRoute.JString "s1")])))))
            (SessionRoute.mkRequest (Some (Some "a@x.io"%string))
               (Some (SessionRoute.JObject
                        [("sessionId"%string, SessionRoute.JString "s1")])))))
  = 404.
Proof.
  rewrite terminate_again_is_not_found; reflexivity.
Defined.

(* ------------------------------------------------------------------ *)
(** ** The [types] parameter: search route and search page *)
(* ------------------------------------------------------------------ *)

Lemma kindOfString_kindName (k : SearchResultType.t) :
  Caller.kindOfString (Caller.kindName k) = Some k.
Proof. destruct k; reflexivity. Qed.

Lemma kindOfString_Some (s : string) (k : SearchResultType.t) :
  Caller.kindOfString s = Some k -> s = Caller.kindName k.
Proof.
  unfold Caller.kindOfString.
  destruct (String.eqb s "policy") eqn:E1;
    [intros [= <-]; now apply String.eqb_eq|].
  destruct (String.eqb s "claim") eqn:E2;
    [intros [= <-]; now apply String.eqb_eq|].
  destruct (String.eqb s "document") eqn:E3;
    [intros [= <-]; now apply String.eqb_eq|discriminate].
Qed.

Lemma kindName_inj (a b : SearchResultType.t) :
  Caller.kindName a = Caller.kindName b -> a = b.
Proof. destruct a, b; simpl; intros H; try reflexivity; discriminate. Qed.

Lemma kind_eqb_name (k a : SearchResultType.t) :
  SearchResultType.eqb k a
  = String.eqb (Caller.kindName k) (Caller.kindName a).
Proof. destruct k, a; reflexivity. Qed.

Lemma keepKinds_count (xs : list string) (k : SearchResultType.t) :
  List.length (filter (SearchResultType.eqb k) (Caller.keepKinds xs))
  = List.length (filter (String.eqb (Caller.kindName k)) xs).
Proof.
  induction xs as [|x xs IH]; [reflexivity|].
  unfold Caller.keepKinds in *. cbn [flat_map filter].
  rewrite filter_app, length_app, IH.
  destruct (Caller.kindOfString x) as [a|] eqn:E.
  - apply kindOfString_Some in E. subst x. cbn [filter].
    rewrite kind_eqb_name.
    destruct (String.eqb (Caller.kindName k) (Caller.kindName a));
      reflexivity.
  - cbn [filter List.length]. 
    destruct (String.eqb (Caller.kindName k) x) eqn:E'; [|reflexivity].
    apply String.eqb_eq in E'. subst x.
    rewrite kindOfString_kindName in E. discriminate.
Qed.

Lemma keepKinds_In (xs : list string) (k : SearchResultType.t) :
  In k (Caller.keepKinds xs) <-> In (Caller.kindName k) xs.
Proof.
  unfold Caller.keepKinds. rewrite in_flat_map. split.
  - intros (x & Hx & Hk). destruct (Caller.kindOfString x) as [a|] eqn:E;
      [|destruct Hk].
    destruct Hk as [->|[]]. apply kindOfString_Some in E. now subst x.
  - intros H. exists (Caller.kindName k). split; [exact H|].
    rewrite kindOfString_kindName. now left.
Qed.

Lemma keepKinds_names (ks : list SearchResultType.t) :
  Caller.keepKinds (map Caller.kindName ks) = ks.
Proof.
  induction ks as [|k ks IH]; [reflexivity|].
  unfold Caller.keepKinds in *. cbn [map flat_map].
  now rewrite kindOfString_kindName, IH.
Qed.

Lemma keepKinds_none (xs : list string) :
  (forall x, In x xs -> Caller.kindOfString x = None) ->
  Caller.keepKinds xs = [].
Proof.
  induction xs as [|x xs IH]; [reflexivity|]. intros H.
  unfold Caller.keepKinds in *. cbn [flat_map].
  rewrite (H x (or_introl eq_refl)). apply IH.
  intros y Hy. apply H. now right.
Qed.

Section EmptyTypes.
Variable formatBytes : Z -> string.

(** [globalSearch] with an empty [types] list finds nothing and issues no
    store call, whatever the text and the window. *)
Lemma globalSearch_no_types (db : Store) (q u : string)
  (lim pg : option Z) :
  globalSearch formatBytes db (mkOptions q u (Some []) lim pg)
  = (Some {| results := []; total := 0 |}, []).
Proof.
  unfold globalSearch. cbn [types withDefault query userId limit page].
  destruct (List.length (tokenize q) =? 0)%nat; reflexivity.
Qed.

(** X20. The search route reads a present, non-empty [types] parameter as the
    comma-separated pieces that name a kind, in their order: every kind is
    handed to [globalSearch] as many times as its name occurs among the
    pieces (repetitions are kept, unknown names are dropped). When no
    piece names a kind the route does not fall back to all kinds: the
    search then answers no results, total zero, without a store call. *)
Theorem route_types_are_the_named_pieces (p : string) :
  JS.isEmpty p = false ->
  (forall k,
      List.length (filter (SearchResultType.eqb k)
                          (Caller.routeTypes (Some p)))
      = List.length (filter (String.eqb (Caller.kindName k))
                            (Caller.splitOn Caller.comma p)))
  /\ (forall k, In k (Caller.routeTypes (Some p))
                <-> In (Caller.kindName k) (Caller.splitOn Caller.comma p))
  /\ ((forall x, In x (Caller.splitOn Caller.comma p) ->
                 Caller.kindOfString x = None) ->
      forall db q u lim pg,
        globalSearch formatBytes db
          (mkOptions q u (Some (Caller.routeTypes (Some p))) lim pg)
        = (Some {| results := []; total := 0 |}, [])).
Proof.
  intros Hp. unfold Caller.routeTypes. rewrite Hp.
  split; [|split].
  - intros k. apply keepKinds_count.
  - intros k. apply keepKinds_In.
  - intros Hnone db q u lim pg. rewrite (keepKinds_none _ Hnone).
    apply globalSearch_no_types.
Qed.

End EmptyTypes.

Lemma route_types_are_the_named_pieces_witness :
  In SearchResultType.claim (Caller.routeTypes (Some "claim,other,claim"%string))
  /\ List.length (filter (SearchResultType.eqb SearchResultType.claim)
                         (Caller.routeTypes (Some "claim,other,claim"%string)))
     = 2%nat.
Proof.
  destruct (route_types_are_the_named_pieces (fun _ => EmptyString)
              "claim,other,claim" eq_refl) as (Hc & Hin & _).
  split.
  - apply Hin. vm_compute. now left.
  - rewrite Hc. reflexivity.
Defined.

(* Splitting a joined list. *)

Lemma splitOnAux_piece (sep : ascii) (s cur rest : string) :
  ~ In sep (list_ascii_of_string s) ->
  Caller.splitOnAux sep cur (s ++ rest)
  = Caller.splitOnAux sep (cur ++ s) rest.
Proof.
  revert cur. induction s as [|c s IH]; intros cur Hfree.
  - simpl. now rewrite str_app_nil_r.
  - cbn [append Caller.splitOnAux].
    destruct (Ascii.eqb c sep) eqn:E.
    + apply Ascii.eqb_eq in E. subst c. exfalso. apply Hfree. now left.
    + rewrite IH.
      * rewrite str_app_assoc. reflexivity.
      * intros Hin. apply Hfree. now right.
Qed.

Lemma splitOnAux_join (sep : ascii) (x : string) (xs : list string)
  (cur : string) :
  Forall (fun s => ~ In sep (list_ascii_of_string s)) (x :: xs) ->
  Caller.splitOnAux sep cur (String.concat (String sep EmptyString) (x :: xs))
  = (cur ++ x)%string :: xs.
Proof.
  revert x cur. induction xs as [|y ys IH]; intros x cur Hfree.
  - cbn [String.concat]. rewrite <- (str_app_nil_r x) at 1.
    rewrite splitOnAux_piece; [reflexivity|].
    now inversion Hfree.
  - change (String.concat (String sep EmptyString) (x :: y :: ys))
      with (x ++ String sep EmptyString
              ++ String.concat (String sep EmptyString) (y :: ys))%string.
    inversion Hfree as [|? ? Hx Hrest]; subst.
    rewrite splitOnAux_piece by exact Hx.
    cbn [append Caller.splitOnAux]. rewrite Ascii.eqb_refl.
    rewrite (IH y EmptyString Hrest). reflexivity.
Qed.

Lemma kindName_comma_free (k : SearchResultType.t) :
  ~ In Caller.comma (list_ascii_of_string (Caller.kindName k)).
Proof.
  destruct k; simpl; intros H;
    repeat (destruct H as [H|H]; [discriminate|]); exact H.
Qed.

Lemma split_joined_kinds (ks : list SearchResultType.t) :
  ks <> [] ->
  Caller.splitOn Caller.comma (String.concat "," (map Caller.kindName ks))
  = map Caller.kindName ks.
Proof.
  destruct ks as [|k ks]; [congruence|]. intros _.
  unfold Caller.splitOn. cbn [map].
  change ","%string with (String Caller.comma EmptyString).
  rewrite splitOnAux_join; [reflexivity|].
  constructor; [apply kindName_comma_free|].
  apply Forall_forall. intros s Hs.
  apply in_map_iff in Hs as (a & <- & _). apply kindName_comma_free.
Qed.

Lemma joined_kinds_not_empty (ks : list SearchResultType.t) :
  ks <> [] ->
  JS.isEmpty (String.concat "," (map Caller.kindName ks)) = false.
Proof.
  destruct ks as [|k ks]; [congruence|]. intros _.
  cbn [map String.concat]. destruct ks; destruct k; reflexivity.
Qed.

(* The states of the filter buttons. *)

Lemma names_are_kinds (l : list string) :
  Forall (fun s => In s Caller.initialTypes) l ->
  exists ks, l = map Caller.kindName ks.
Proof.
  induction 1 as [|x l Hx _ [ks ->]]; [now exists []|].
  simpl in Hx.
  destruct Hx as [<-|[<-|[<-|[]]]];
    [exists (SearchResultType.policy :: ks)
    |exists (SearchResultType.claim :: ks)
    |exists (SearchResultType.document :: ks)]; reflexivity.
Qed.

Lemma toggleType_invariant (l : list string) (t : string) :
  In t Caller.initialTypes ->
  l <> [] /\ NoDup l /\ Forall (fun s => In s Caller.initialTypes) l ->
  Caller.toggleType l t <> []
  /\ NoDup (Caller.toggleType l t)
  /\ Forall (fun s => In s Caller.initialTypes) (Caller.toggleType l t).
Proof.
  intros Ht (Hne & Hnd & Hall). unfold Caller.toggleType.
  destruct (existsb (String.eqb t) l) eqn:Ein.
  - destruct (1 <? List.length l)%nat eqn:Elen.
    + split; [|split].
      * apply Nat.ltb_lt in Elen.
        destruct l as [|a [|b r]]; simpl in Elen; try lia.
        inversion Hnd as [|? ? Ha _]; subst.
        cbn [filter].
        destruct (String.eqb a t) eqn:Ea; cbn [negb].
        -- apply String.eqb_eq in Ea. subst a.
           destruct (String.eqb b t) eqn:Eb; cbn [negb]; [|discriminate].
           apply String.eqb_eq in Eb. subst b. exfalso. apply Ha. now left.
        -- discriminate.
      * now apply NoDup_filter.
      * apply Forall_forall. intros s Hs. apply filter_In in Hs as [Hs _].
        now apply (proj1 (Forall_forall _ _) Hall).
    + repeat split; assumption.
  - split; [|split].
    + destruct l; discriminate.
    + apply NoDup_app; [exact Hnd | repeat constructor; intros [] | ].
      intros x Hx [<-|[]].
      assert (existsb (String.eqb t) l = true)
        by (apply existsb_exists; exists t; split;
            [exact Hx | apply String.eqb_refl]).
      congruence.
    + apply Forall_app. split; [exact Hall|].
      constructor; [exact Ht | constructor].
Qed.

Lemma clicks_invariant (clicks l : list string) :
  Forall (fun t => In t Caller.initialTypes) clicks ->
  l <> [] /\ NoDup l /\ Forall (fun s => In s Caller.initialTypes) l ->
  fold_left Caller.toggleType clicks l <> []
  /\ NoDup (fold_left Caller.toggleType clicks l)
  /\ Forall (fun s => In s Caller.initialTypes)
            (fold_left Caller.toggleType clicks l).
Proof.
  revert l. induction clicks as [|t clicks IH]; intros l Hclicks Hl;
    [exact Hl|].
  inversion Hclicks as [|? ? Ht Hrest]; subst. cbn [fold_left].
  apply IH; [exact Hrest|]. now apply toggleType_invariant.
Qed.

Lemma afterClicks_invariant (clicks : list string) :
  Forall (fun t => In t Caller.initialTypes) clicks ->
  Caller.afterClicks clicks <> []
  /\ NoDup (Caller.afterClicks clicks)
  /\ Forall (fun s => In s Caller.initialTypes) (Caller.afterClicks clicks).
Proof.
  intros Hclicks. unfold Caller.afterClicks.
  apply clicks_invariant; [exact Hclicks|].
  split; [discriminate|]. split.
  - repeat constructor; simpl; intuition discriminate.
  - apply Forall_forall. auto.
Qed.

Lemma three_kinds_are_all (ks : list SearchResultType.t)
  (k : SearchResultType.t) :
  NoDup ks -> List.length ks = 3%nat -> In k ks.
Proof.
  intros Hnd Hlen.
  destruct ks as [|a [|b [|c [|d r]]]]; try discriminate.
  inversion Hnd as [|? ? Ha Hnd1]; subst.
  inversion Hnd1 as [|? ? Hb Hnd2]; subst.
  inversion Hnd2 as [|? ? Hc _]; subst.
  destruct a, b, c, k; simpl in *; tauto.
Qed.

(** X21. The search page never sends a malformed or repeated kind. Whatever
    series of filter buttons is clicked, the active types stay a
    non-empty, duplicate-free list of kind names, and the kinds the search
    route derives from what the page sends are exactly the active ones,
    each once (in the page's order unless all three are active, when the
    parameter is omitted and the route takes its default). *)
Theorem page_filters_round_trip (clicks : list string) :
  Forall (fun t => In t Caller.initialTypes) clicks ->
  let active := Caller.afterClicks clicks in
  let received := Caller.routeTypes (Caller.sentTypes active) in
  active <> []
  /\ NoDup active
  /\ NoDup received
  /\ List.length received = List.length active
  /\ (forall k, In k received <-> In (Caller.kindName k) active)
  /\ (List.length active <> 3%nat -> map Caller.kindName received = active).
Proof.
  intros Hclicks active received. subst received.
  destruct (afterClicks_invariant clicks Hclicks) as (Hne & Hnd & Hall).
  fold active in Hne, Hnd, Hall.
  destruct (names_are_kinds active Hall) as [ks Hks].
  assert (Hks_ne : ks <> []) by (intros ->; now apply Hne).
  assert (Hks_nd : NoDup ks).
  { rewrite Hks in Hnd. now apply NoDup_map_inv in Hnd. }
  split; [exact Hne|]. split; [exact Hnd|].
  unfold Caller.sentTypes.
  destruct (List.length active =? 3)%nat eqn:E3.
  - apply Nat.eqb_eq in E3. cbn [Caller.routeTypes].
    split; [repeat constructor; simpl; intuition discriminate|].
    split; [now rewrite E3|]. split; [|congruence].
    intros k. split.
    + intros _. rewrite Hks. apply in_map.
      apply three_kinds_are_all; [exact Hks_nd|].
      rewrite Hks, length_map in E3. exact E3.
    + intros _. destruct k; simpl; auto.
  - cbn [Caller.routeTypes]. rewrite Hks.
    rewrite (joined_kinds_not_empty ks Hks_ne),
      (split_joined_kinds ks Hks_ne), keepKinds_names.
    split; [exact Hks_nd|]. split; [now rewrite length_map|].
    split; [|reflexivity].
    intros k. split; [apply in_map|].
    intros H. apply in_map_iff in H as (a & Ha & Hin).
    apply kindName_inj in Ha. now subst a.
Qed.

Lemma page_filters_round_trip_witness :
  Caller.routeTypes
    (Caller.sentTypes (Caller.afterClicks ["policy"; "claim"; "policy"]%string))
  <> []
  /\ map Caller.kindName
       (Caller.routeTypes
          (Caller.sentTypes
             (Caller.afterClicks ["policy"; "claim"; "policy"]%string)))
     = Caller.afterClicks ["policy"; "claim"; "policy"]%string.
Proof.
  destruct (page_filters_round_trip ["policy"; "claim"; "policy"]%string)
    as (_ & _ & _ & _ & _ & Heq).
  - apply Forall_forall. intros t Ht. simpl in *. tauto.
  - split.
    + vm_compute. discriminate.
    + apply Heq. vm_compute. discriminate.
Defined.

(* ------------------------------------------------------------------ *)
(** ** The page links of the search page *)
(* ------------------------------------------------------------------ *)

Lemma StronglySorted_filter {A : Type} (R : A -> A -> Prop) (f : A -> bool)
  (l : list A) :
  StronglySorted R l -> StronglySorted R (filter f l).
Proof.
  induction 1 as [|a l Hs IH Hall]; [constructor|]. simpl.
  destruct (f a); [|exact IH]. constructor; [exact IH|].
  apply Forall_forall. intros x Hx. apply filter_In in Hx as [Hx _].
  now apply (proj1 (Forall_forall _ _) Hall).
Qed.

Lemma numbered_sorted (start n : nat) :
  StronglySorted Z.lt (map (fun i => Z.of_nat i + 1) (seq start n)).
Proof.
  revert start. induction n as [|n IH]; intros start; [constructor|].
  cbn [seq map]. constructor; [apply IH|].
  apply Forall_forall. intros x Hx.
  apply in_map_iff in Hx as (i & <- & Hi). apply in_seq in Hi. lia.
Qed.

Lemma StronglySorted_lt_NoDup (l : list Z) :
  StronglySorted Z.lt l -> NoDup l.
Proof.
  induction 1 as [|a l Hs IH Hall]; constructor; [|exact IH].
  intros Hin. apply (proj1 (Forall_forall _ _) Hall) in Hin. lia.
Qed.

Lemma pageLinks_In (page totalPages p : Z) :
  In p (Caller.pageLinks page totalPages)
  <-> 1 <= p <= totalPages
      /\ (p = 1 \/ p = totalPages \/ page - 1 <= p <= page + 1).
Proof.
  unfold Caller.pageLinks. rewrite filter_In, in_map_iff.
  rewrite !orb_true_iff, andb_true_iff, !Z.eqb_eq, !Z.leb_le.
  split.
  - intros [(i & <- & Hi) H]. apply in_seq in Hi. split; [lia|tauto].
  - intros [Hr H]. split; [|tauto].
    exists (Z.to_nat (p - 1)). split; [lia|]. apply in_seq. lia.
Qed.

Lemma pageLinks_sorted (page totalPages : Z) :
  StronglySorted Z.lt (Caller.pageLinks page totalPages).
Proof. apply StronglySorted_filter, numbered_sorted. Qed.

(** In a strictly increasing list, a number between two members is a
    member or falls strictly between two neighbours. *)
Lemma gap_cover (l : list Z) :
  StronglySorted Z.lt l ->
  forall lo hi q, In lo l -> In hi l -> lo <= q <= hi ->
  In q l
  \/ exists i, (S i < List.length l)%nat
               /\ nth i l 0 < q < nth (S i) l 0.
Proof.
  induction 1 as [|a l Hs IH Hall]; intros lo hi q Hlo Hhi Hq; [destruct Hlo|].
  assert (Hge : forall x, In x (a :: l) -> a <= x).
  { intros x [<-|Hx]; [lia|].
    apply (proj1 (Forall_forall _ _) Hall) in Hx. lia. }
  destruct (Z.eq_dec q a) as [->|Hne]; [left; now left|].
  assert (Haq : a < q) by (specialize (Hge lo Hlo); lia).
  destruct Hhi as [->|Hhi]; [lia|].
  destruct l as [|b r]; [destruct Hhi|].
  destruct (Z.lt_ge_cases q b) as [Hqb|Hbq].
  - right. exists 0%nat. simpl. split; lia.
  - destruct (IH b hi q (or_introl eq_refl) Hhi (conj Hbq (proj2 Hq)))
      as [Hin|(i & Hi & Hgap)].
    + left. now right.
    + right. exists (S i). split; [simpl in *; lia|].
      exact Hgap.
Qed.

(** X22. The page links of the search page, for a current page within
    [1 .. totalPages]: at most five links, in increasing order, all within
    range, among them the first page, the current page and the last page;
    and every page number that is not linked lies in a gap that shows an
    ellipsis. *)
Theorem page_links_cover_all_pages (page totalPages : Z) :
  1 <= page <= totalPages ->
  let links := Caller.pageLinks page totalPages in
  StronglySorted Z.lt links
  /\ (List.length links <= 5)%nat
  /\ (forall p, In p links -> 1 <= p <= totalPages)
  /\ In 1 links /\ In page links /\ In totalPages links
  /\ (forall q, 1 <= q <= totalPages ->
        In q links
        \/ exists i, Caller.showEllipsisAfter links i = true
                     /\ nth i links 0 < q < nth (S i) links 0).
Proof.
  intros Hpage links. subst links.
  assert (Hs := pageLinks_sorted page totalPages).
  assert (H1 : In 1 (Caller.pageLinks page totalPages))
    by (apply pageLinks_In; lia).
  assert (Hp : In page (Caller.pageLinks page totalPages))
    by (apply pageLinks_In; lia).
  assert (Ht : In totalPages (Caller.pageLinks page totalPages))
    by (apply pageLinks_In; lia).
  split; [exact Hs|]. split; [|split; [|repeat split; try assumption]].
  - change 5%nat
      with (List.length [1; totalPages; page - 1; page; page + 1]).
    apply NoDup_incl_length; [now apply StronglySorted_lt_NoDup|].
    intros p Hin. apply pageLinks_In in Hin as [_ Hin]. simpl. lia.
  - intros p Hin. now apply pageLinks_In in Hin.
  - intros q Hq.
    destruct (gap_cover _ Hs 1 totalPages q H1 Ht Hq)
      as [Hin|(i & Hi & Hgap)]; [now left|].
    right. exists i. split; [|exact Hgap].
    unfold Caller.showEllipsisAfter.
    apply andb_true_iff. split; [apply Z.ltb_lt | apply Z.ltb_lt]; lia.
Qed.

Lemma page_links_cover_all_pages_witness :
  (List.length (Caller.pageLinks 5 10) <= 5)%nat
  /\ In 5 (Caller.pageLinks 5 10).
Proof.
  destruct (page_links_cover_all_pages 5 10) as (_ & Hlen & _ & _ & Hp & _);
    [lia|].
  split; [exact Hlen | exact Hp].
Defined.

(* ------------------------------------------------------------------ *)
(** ** Page numbers below one *)
(* ------------------------------------------------------------------ *)


Section BelowOne.
Variable formatBytes : Z -> string.


End BelowOne.


(* ------------------------------------------------------------------ *)
(** ** The policy filter route *)
(* ------------------------------------------------------------------ *)




